(** * verifai: the editable surface and the metrics panel

    A shallow embedding of [src/components/TextInput.tsx] (paste handling and
    the submit/highlight pipeline) and of [src/components/ResultMetrics.tsx]
    (the metrics panel), with the properties stated for them.

    Conventions of the embedding:
    - a JavaScript string is a [string]: a sequence of code units, of which
      only the ones below 256 are represented;
    - a JavaScript number is an IEEE 754 binary64 value, the kernel's
      primitive [float], with its own [+], [/] and [*];
    - [textInputRef.current.innerHTML] is a string cell of the state. What
      [handleSubmit] assigns to it is markup that the surface had given out
      before, with tags dropped and markers added, and is read back as
      assigned. What [handlePaste] assigns holds clipboard text of any kind:
      there the markup that the browser gives back after parsing the
      assignment is a parameter, the browser being no part of the repository;
    - [fetch] and [Response.json] are the environment: a function from the
      request to the outcome of the call. *)

From Stdlib Require Import List String Ascii Arith Lia Bool ZArith.
From Stdlib Require Import PrimFloat Uint63 DecimalString DecimalNat.
From Stdlib Require FloatAxioms.
From Equations.Prop Require Import Equations Logic.
Import ListNotations.
Open Scope string_scope.

(** ** JavaScript string primitives *)

(** [strip_prefix p s] is [Some r] exactly when [s] is [p] followed by [r]. *)
Fixpoint strip_prefix (p s : string) : option string :=
  match p, s with
  | EmptyString, _ => Some s
  | String a p', String b s' => if Ascii.eqb a b then strip_prefix p' s' else None
  | String _ _, EmptyString => None
  end.

Lemma strip_prefix_length (p s r : string) :
  strip_prefix p s = Some r -> String.length s = String.length p + String.length r.
Proof.
  revert s; induction p as [|a p IH]; intros [|b s]; simpl; try congruence.
  - intros [= <-]; reflexivity.
  - intros [= <-]; reflexivity.
  - destruct (Ascii.eqb a b); [|discriminate].
    intros H; rewrite (IH _ H); reflexivity.
Qed.

(** Puts one more code unit in front of the segment being read. *)
Definition cons_head (c : ascii) (l : list string) : list string :=
  match l with
  | [] => [String c ""]
  | h :: t => String c h :: t
  end.

(** [String.prototype.split] for a separator [String a sep] that is not
    empty: the string is read from the left, every occurrence of the separator
    closes a segment and reading goes on after it. *)
Equations? split_on (a : ascii) (sep : string) (s : string) : list string
  by wf (String.length s) lt :=
  split_on a sep EmptyString := [""];
  split_on a sep (String c s') with inspect (strip_prefix (String a sep) (String c s')) := {
    | exist _ (Some rest) _ => "" :: split_on a sep rest;
    | exist _ None _ => cons_head c (split_on a sep s') }.
Proof.
  change (strip_prefix (String a sep) (String c s') = Some rest) in e.
  apply strip_prefix_length in e. simpl in *. lia.
Qed.

(** [s.split(sep)]. With the empty separator JavaScript yields the code units
    one by one. *)
Definition split (sep s : string) : list string :=
  match sep with
  | EmptyString => map (fun c => String c "") (list_ascii_of_string s)
  | String a sep' => split_on a sep' s
  end.

(** [l.join(sep)]. *)
Definition join (sep : string) (l : list string) : string := String.concat sep l.

(** [n.toString()] for an array index. *)
Definition toString (n : nat) : string := NilEmpty.string_of_uint (Nat.to_uint n).

(** [\n] *)
Definition newline : ascii := "010"%char.

(** [text.replace(/\n/g, '<br>')]. *)
Fixpoint replace_newlines (s : string) : string :=
  match s with
  | EmptyString => ""
  | String c s' =>
      if Ascii.eqb c newline then "<br>" ++ replace_newlines s'
      else String c (replace_newlines s')
  end.

(** [s.includes(p)] *)
Fixpoint occurs (p s : string) : bool :=
  match s with
  | EmptyString => match p with EmptyString => true | String _ _ => false end
  | String _ s' =>
      match strip_prefix p s with
      | Some _ => true
      | None => occurs p s'
      end
  end.

(** How many times the code unit [c] occurs in [s]. *)
Fixpoint count_char (c : ascii) (s : string) : nat :=
  match s with
  | EmptyString => 0
  | String d s' => (if Ascii.eqb c d then 1 else 0) + count_char c s'
  end.

(** How many positions of [s] start an occurrence of [p]. *)
Fixpoint count_sub (p s : string) : nat :=
  match s with
  | EmptyString => 0
  | String _ s' =>
      match strip_prefix p s with
      | Some _ => 1
      | None => 0
      end + count_sub p s'
  end.

(** ** The tag pattern of [handleSubmit]

    [/<(?!br\s*\/?)[a-z][^>]*>|<\/(?!br\s*\/?)[a-z][^>]*>/gi] *)

(** [[a-z]] under the [i] flag. *)
Definition is_letter (c : ascii) : bool :=
  let n := nat_of_ascii c in
  ((65 <=? n)%nat && (n <=? 90)%nat) || ((97 <=? n)%nat && (n <=? 122)%nat).

(** The lookahead body [br\s*\/?] under the [i] flag: [\s*] and [\/?] both
    match the empty string, so it succeeds exactly on a [b] and an [r]. *)
Definition starts_br (s : string) : bool :=
  match s with
  | String b (String r _) =>
      (Ascii.eqb b "b" || Ascii.eqb b "B") && (Ascii.eqb r "r" || Ascii.eqb r "R")
  | _ => false
  end.

(** [[^>]*>]: everything up to and including the next [>]; what follows it. *)
Fixpoint after_gt (s : string) : option string :=
  match s with
  | EmptyString => None
  | String c s' => if Ascii.eqb c ">" then Some s' else after_gt s'
  end.

(** [(?!br\s*\/?)[a-z][^>]*>] *)
Definition tag_rest (s : string) : option string :=
  match s with
  | String c s' => if is_letter c && negb (starts_br s) then after_gt s' else None
  | EmptyString => None
  end.

(** A match of the whole pattern at the start of [s]: what follows the match.
    The two alternatives exclude each other, since [/] is not a letter. *)
Definition match_tag (s : string) : option string :=
  match s with
  | String c r =>
      if Ascii.eqb c "<" then
        match r with
        | String d r' => if Ascii.eqb d "/" then tag_rest r' else tag_rest r
        | EmptyString => None
        end
      else None
  | EmptyString => None
  end.

Lemma after_gt_length (s r : string) :
  after_gt s = Some r -> String.length r < String.length s.
Proof.
  induction s as [|c s IH]; simpl; [discriminate|].
  destruct (Ascii.eqb c ">").
  - intros [= <-]; lia.
  - intros H; specialize (IH H); lia.
Qed.

Lemma tag_rest_length (s r : string) :
  tag_rest s = Some r -> String.length r < String.length s.
Proof.
  destruct s as [|c s]; simpl; [discriminate|].
  destruct (is_letter c && negb _); [|discriminate].
  intros H; apply after_gt_length in H; lia.
Qed.

Lemma match_tag_length (s r : string) :
  match_tag s = Some r -> String.length r < String.length s.
Proof.
  unfold match_tag.
  destruct s as [|c s]; [discriminate|].
  destruct (Ascii.eqb c "<"); [|discriminate].
  destruct s as [|d s]; [discriminate|].
  destruct (Ascii.eqb d "/"); intros H; apply tag_rest_length in H; simpl in *; lia.
Qed.

(** [input.replace(pattern, '')] with the [g] flag: the leftmost match is
    dropped and the scan goes on after it. *)
Equations? strip_tags (s : string) : string by wf (String.length s) lt :=
  strip_tags EmptyString := "";
  strip_tags (String c s') with inspect (match_tag (String c s')) := {
    | exist _ (Some rest) _ => strip_tags rest;
    | exist _ None _ => String c (strip_tags s') }.
Proof.
  change (match_tag (String c s') = Some rest) in e.
  apply match_tag_length in e. exact e.
Qed.

(** Some position of [s] starts a match of the pattern. *)
Fixpoint has_tag (s : string) : bool :=
  match s with
  | EmptyString => false
  | String c s' =>
      match match_tag s with
      | Some _ => true
      | None => has_tag s'
      end
  end.

(** ** JavaScript numbers and arrays *)

(** [ToBoolean] of a number: [0], [-0] and [NaN] are falsy. *)
Definition truthy (x : float) : bool :=
  negb (PrimFloat.eqb x 0 || PrimFloat.is_nan x).

(** [x || 0] *)
Definition or_zero (x : float) : float := if truthy x then x else 0%float.

(** The number an array length (below [2^32]) is read as. *)
Definition of_length (n : nat) : float := PrimFloat.of_uint63 (Uint63.of_Z (Z.of_nat n)).

(** [l[i]] inside a template literal: a missing entry prints as [undefined]. *)
Definition array_get (l : list string) (i : nat) : string := nth i l "undefined".

(** [l[i] = x]: an index past the end grows the array, the holes in between
    are joined as empty strings. *)
Fixpoint array_set (i : nat) (x : string) (l : list string) : list string :=
  match i, l with
  | O, [] => [x]
  | O, _ :: t => x :: t
  | S k, [] => "" :: array_set k x []
  | S k, h :: t => h :: array_set k x t
  end.

(** ** Data model *)

(** Modelled from the spec: the interfaces [InputTextResult] and
    [UserDocument] of [src/utils/interfaces], a file that is not among the
    sources. The fields are the ones the two components read and write:
    [{ id: string, score: { gpt: number, human: number },
    metrics: { coherence, repetition, personality, originality },
    details: array }] for a result; content, rating and results for a
    document. *)
Record Score := { gpt : float; human : float }.

Record Metrics := {
  coherence : float;
  repetition : float;
  personality : float;
  originality : float }.

(** Of [details] the components read the length only. *)
Record InputTextResult := {
  id : string;
  score : Score;
  metrics : Metrics;
  details : list string }.

(** The [overallMetrics] object of [handleSubmit]. *)
Record OverallMetrics := {
  overall_coherence : float;
  overall_repetition : float;
  overall_personality : float;
  overall_originality : float;
  errorTextCount : float }.

Record Rating := {
  rating_gpt : float;
  rating_human : float;
  rating_metrics : OverallMetrics }.

Record UserDocument := {
  content : string;
  rating : Rating;
  results : list InputTextResult }.

(** ** Effects *)

(** What a rejected promise carries. *)
Definition error := string.

(** What a [fetch] promise settles to: a response, whose [json()] promise
    resolves to a result or rejects, or a rejection. A body that parses is a
    result, as the annotation [InputTextResult[]] of the last [then] has it. *)
Inductive settled :=
| Resolved (json : error + InputTextResult)
| Rejected (e : error).

(** The remote endpoint, asked with [{id: textId, data: sentence}]. *)
Definition endpoint := nat -> string -> settled.

Inductive event :=
| Fetch (textId : nat) (data : string)
| SetInnerHTML (html : string)
| SetIsLoading (b : bool)
| SetResults (rs : list InputTextResult)
| UpdateUserDocument (d : UserDocument)
| ConsoleLog (e : error).

(** Modelled from the spec: the shared UI state of [AppContextProvider]
    (a loading flag and the last results, written through [setIsLoading] and
    [setResults]) and the parent's [updateUserDocument], which are not among
    the sources. The state holds them next to the editable surface: the
    setters store their argument. *)
Record AppState := {
  innerHTML : string;
  isLoading : bool;
  shared_results : list InputTextResult;
  userDocument : UserDocument }.

(** State and trace of effects. *)
Definition M (A : Type) : Type := AppState -> A * AppState * list event.

Definition ret {A} (a : A) : M A := fun st => (a, st, []).

Definition bind {A B} (m : M A) (k : A -> M B) : M B :=
  fun st =>
    let '(a, st1, t1) := m st in
    let '(b, st2, t2) := k a st1 in
    (b, st2, (t1 ++ t2)%list).

Declare Scope app_scope.
Delimit Scope app_scope with app.
Notation "x <- c ;; k" := (bind c (fun x => k))
  (at level 61, c at next level, right associativity) : app_scope.
Notation "c ;; k" := (bind c (fun _ => k))
  (at level 61, right associativity) : app_scope.
Open Scope app_scope.

Definition getInnerHTML : M string := fun st => (innerHTML st, st, []).

Definition getUserDocument : M UserDocument := fun st => (userDocument st, st, []).

Definition setInnerHTML (html : string) : M unit := fun st =>
  (tt,
   {| innerHTML := html; isLoading := isLoading st;
      shared_results := shared_results st; userDocument := userDocument st |},
   [SetInnerHTML html]).

Definition setIsLoading (b : bool) : M unit := fun st =>
  (tt,
   {| innerHTML := innerHTML st; isLoading := b;
      shared_results := shared_results st; userDocument := userDocument st |},
   [SetIsLoading b]).

Definition setResults (rs : list InputTextResult) : M unit := fun st =>
  (tt,
   {| innerHTML := innerHTML st; isLoading := isLoading st;
      shared_results := rs; userDocument := userDocument st |},
   [SetResults rs]).

Definition updateUserDocument (d : UserDocument) : M unit := fun st =>
  (tt,
   {| innerHTML := innerHTML st; isLoading := isLoading st;
      shared_results := shared_results st; userDocument := d |},
   [UpdateUserDocument d]).

Definition consoleLog (e : error) : M unit := fun st => (tt, st, [ConsoleLog e]).

Definition fetch (api : endpoint) (textId : nat) (data : string) : M settled :=
  fun st => (api textId data, st, [Fetch textId data]).

(** [texts.map((text, idx) => f(idx, text))] for an effectful [f], the index
    starting at [idx]. *)
Fixpoint map_indexed {A B} (f : nat -> A -> M B) (idx : nat) (l : list A) : M (list B) :=
  match l with
  | [] => ret []
  | x :: l' =>
      y <- f idx x ;;
      ys <- map_indexed f (S idx) l' ;;
      ret (y :: ys)
  end.

(** [Promise.all]: the values when every promise resolves, a rejection
    otherwise. Of several rejections the first to settle wins in JavaScript;
    here the first in array order stands for it. *)
Fixpoint promise_all {A} (ps : list (error + A)) : error + list A :=
  match ps with
  | [] => inr []
  | inl e :: _ => inl e
  | inr a :: ps' =>
      match promise_all ps' with
      | inl e => inl e
      | inr l => inr (a :: l)
      end
  end.

(** ** [TextInput]: paste handling *)

(** The clipboard of a paste event, by flavour: [getData('text/plain')] and
    [getData('text/html')]. *)
Record ClipboardData := { text_plain : string; text_html : string }.

(** [{...userDocument, content: c}] *)
Definition with_content (d : UserDocument) (c : string) : UserDocument :=
  {| content := c; rating := rating d; results := results d |}.

(** The browser, as far as a paste meets it: the markup that [innerHTML]
    reads back once a string has been assigned to it, which is the
    serialisation of what the string was parsed to. *)
Definition Browser := string -> string.

(** [textInputRef.current.innerHTML = html], the surface then holding what the
    browser reads back. *)
Definition assignInnerHTML (reparse : Browser) (html : string) : M unit := fun st =>
  (tt,
   {| innerHTML := reparse html; isLoading := isLoading st;
      shared_results := shared_results st; userDocument := userDocument st |},
   [SetInnerHTML html]).

Definition handlePaste (reparse : Browser) (clipboardData : ClipboardData) : M unit :=
  let text := text_plain clipboardData in
  let text := replace_newlines text in
  html <- getInnerHTML ;;
  assignInnerHTML reparse (html ++ text) ;;
  doc <- getUserDocument ;;
  html <- getInnerHTML ;;
  updateUserDocument (with_content doc html).

(** ** [TextInput]: the submission pipeline *)

Definition verifyText (api : endpoint) (textId : nat) (sentence : string)
  : M (option settled) :=
  if String.eqb sentence "" then ret None
  else r <- fetch api textId sentence ;; ret (Some r).

(** A skipped segment leaves [undefined] in the array, which [Promise.all]
    passes through; a rejected [fetch] rejects the whole. *)
Definition await_fetch (call : option settled)
  : error + option (error + InputTextResult) :=
  match call with
  | None => inr None
  | Some (Rejected e) => inl e
  | Some (Resolved json) => inr (Some json)
  end.

(** [await result?.json()] *)
Definition await_json (result : option (error + InputTextResult))
  : error + option InputTextResult :=
  match result with
  | None => inr None
  | Some (inl e) => inl e
  | Some (inr r) => inr (Some r)
  end.

(** The double quote of the template literal. *)
Definition dquote : string := String "034"%char "".

(** The highlight marker around a flagged segment. *)
Definition wrap (i : nat) (text : string) : string :=
  "<span id=" ++ dquote ++ toString i ++ dquote ++ " class=" ++ dquote
  ++ "border-b-2 border-red-400" ++ dquote ++ ">" ++ text ++ "</span>".

(** [r.id = i] *)
Definition set_id (i : string) (r : InputTextResult) : InputTextResult :=
  {| id := i; score := score r; metrics := metrics r; details := details r |}.

(** [inputTextResults[i].id = i.toString()] on an entry that exists. *)
Fixpoint stamp (i : nat) (s : string) (l : list (option InputTextResult))
  : list (option InputTextResult) :=
  match i, l with
  | _, [] => []
  | O, r :: t => option_map (set_id s) r :: t
  | S k, r :: t => r :: stamp k s t
  end.

(** One turn of the highlight loop. *)
Definition highlight_step
  (st : list (option InputTextResult) * list string) (i : nat)
  : list (option InputTextResult) * list string :=
  let '(inputTextResults, replaceMentTexts) := st in
  match nth i inputTextResults None with
  | None => st
  | Some inputTextResult =>
      let replaceMentTexts :=
        if PrimFloat.ltb (human (score inputTextResult)) (gpt (score inputTextResult))
        then array_set i (wrap i (array_get replaceMentTexts i)) replaceMentTexts
        else replaceMentTexts in
      (stamp i (toString i) inputTextResults, replaceMentTexts)
  end.

(** The [for] loop over the positions of [inputTextResults]. *)
Definition highlight
  (inputTextResults : list (option InputTextResult)) (replaceMentTexts : list string)
  : list (option InputTextResult) * list string :=
  fold_left highlight_step (seq 0 (List.length inputTextResults))
    (inputTextResults, replaceMentTexts).

(** [inputTextResults.filter((inputTextResult) => inputTextResult)] *)
Fixpoint remove_empty (l : list (option InputTextResult)) : list InputTextResult :=
  match l with
  | [] => []
  | Some r :: t => r :: remove_empty t
  | None :: t => remove_empty t
  end.

(** The accumulators declared before the [forEach]. *)
Record Totals := {
  overallGptScore : float;
  overallHumanScore : float;
  overallMetrics : OverallMetrics }.

Definition no_totals : Totals :=
  {| overallGptScore := 0; overallHumanScore := 0;
     overallMetrics :=
       {| overall_coherence := 0; overall_repetition := 0; overall_personality := 0;
          overall_originality := 0; errorTextCount := 0 |} |}.

(** The body of the [forEach]. *)
Definition accumulate (t : Totals) (result : InputTextResult) : Totals :=
  if (0 <? List.length (details result))%nat then
    let m := overallMetrics t in
    {| overallGptScore := overallGptScore t + or_zero (gpt (score result));
       overallHumanScore := overallHumanScore t + or_zero (human (score result));
       overallMetrics :=
         {| overall_coherence := overall_coherence m + or_zero (coherence (metrics result));
            overall_repetition := overall_repetition m + or_zero (repetition (metrics result));
            overall_personality := overall_personality m + or_zero (personality (metrics result));
            overall_originality := overall_originality m + or_zero (originality (metrics result));
            errorTextCount := errorTextCount m + 1 |} |}%float
  else t.

(** The four sub-metrics brought to the displayed scale. *)
Definition scale (m : OverallMetrics) : OverallMetrics :=
  {| overall_coherence := (overall_coherence m / errorTextCount m) * 10;
     overall_repetition := (overall_repetition m / errorTextCount m) * 10;
     overall_personality := (overall_personality m / errorTextCount m) * 10;
     overall_originality := (overall_originality m / errorTextCount m) * 10;
     errorTextCount := errorTextCount m |}%float.

(** The rating stored on the document. *)
Definition rate (inputTextResults : list InputTextResult) : Rating :=
  let t := fold_left accumulate inputTextResults no_totals in
  {| rating_gpt := (overallGptScore t / of_length (List.length inputTextResults)) * 100;
     rating_human := (overallHumanScore t / of_length (List.length inputTextResults)) * 100;
     rating_metrics := scale (overallMetrics t) |}%float.

(** The last [then] of the chain. The document that is stored overrides
    content, rating and results of [{...userDocument}], which is all of it. *)
Definition on_results (replaceMentTexts : list string)
  (inputTextResults : list (option InputTextResult)) : M unit :=
  let '(inputTextResults, replaceMentTexts) :=
    highlight inputTextResults replaceMentTexts in
  setInnerHTML (join "<br>" replaceMentTexts) ;;
  let inputTextResults := remove_empty inputTextResults in
  setResults inputTextResults ;;
  html <- getInnerHTML ;;
  updateUserDocument
    {| content := html; rating := rate inputTextResults;
       results := inputTextResults |} ;;
  setIsLoading false.

(** [input ? input.split('<br>') : []] *)
Definition segments (input : string) : list string :=
  if String.eqb input "" then [] else split "<br>" input.

(** The chain [Promise.all(..).then(..).then(..).catch(..)]: a rejection at
    either [Promise.all] skips what is left and is logged. *)
Definition handleSubmit (api : endpoint) : M unit :=
  input <- getInnerHTML ;;
  let input := strip_tags input in
  setInnerHTML input ;;
  let texts := segments input in
  let replaceMentTexts := texts in
  verifyTextApiCalls <- map_indexed (verifyText api) 0 texts ;;
  setIsLoading true ;;
  match promise_all (map await_fetch verifyTextApiCalls) with
  | inr results =>
      match promise_all (map await_json results) with
      | inr inputTextResults => on_results replaceMentTexts inputTextResults
      | inl error => consoleLog error
      end
  | inl error => consoleLog error
  end.

(** ** [TextMetrics]: the metrics panel *)

(** What the panel shows; the two-decimal formatting is left out. *)
Inductive view :=
| ResultMetricsLoader
| MetricsView (overall : float) (items : list (string * float)).

(** [Object.keys(metrics)] with the values. *)
Definition entries (m : OverallMetrics) : list (string * float) :=
  [("coherence", overall_coherence m); ("repetition", overall_repetition m);
   ("personality", overall_personality m); ("originality", overall_originality m);
   ("errorTextCount", errorTextCount m)].

(** The panel reads the loading flag of the shared state and the rating of
    the document. *)
Definition TextMetrics (st : AppState) : view :=
  let metrics := rating_metrics (rating (userDocument st)) in
  if isLoading st then ResultMetricsLoader
  else MetricsView (rating_gpt (rating (userDocument st)))
         (filter (fun kv => negb (String.eqb (fst kv) "errorTextCount")) (entries metrics)).

(** ** The aggregation in the words of the specification *)

(** A result contributes when its details list is not empty. *)
Definition contributes (r : InputTextResult) : bool :=
  (0 <? List.length (details r))%nat.

(** The sum of [f] over [l], added up from the left onto [init]. *)
Definition sum_from (init : float) (f : InputTextResult -> float)
  (l : list InputTextResult) : float :=
  fold_left (fun acc r => acc + f r)%float l init.

(** The sum of [f] over [l], from [0] on. *)
Definition sum_of (f : InputTextResult -> float) (l : list InputTextResult) : float :=
  sum_from 0 f l.

(** The number [K] as a count arrives at it: [0] incremented [K] times. *)
Definition counted (K : nat) : float := Nat.iter K (fun n => n + 1)%float 0%float.

(** The overall percentage taken over all the filtered results. *)
Definition overall_of_all (f : InputTextResult -> float)
  (l : list InputTextResult) : float :=
  (sum_of f l / of_length (List.length l) * 100)%float.

(** ** The pipeline, stage by stage *)

(** The calls that [texts.map(verifyText)] issues, in order. *)
Fixpoint requests (idx : nat) (texts : list string) : list event :=
  match texts with
  | [] => []
  | t :: texts' =>
      ((if String.eqb t "" then [] else [Fetch idx t]) ++ requests (S idx) texts')%list
  end.

(** The array [verifyTextApiCalls], each promise with what it settles to. *)
Fixpoint responses (api : endpoint) (idx : nat) (texts : list string)
  : list (option settled) :=
  match texts with
  | [] => []
  | t :: texts' =>
      (if String.eqb t "" then None else Some (api idx t))
      :: responses api (S idx) texts'
  end.

(** A call answered with the result [r]. *)
Definition resolved (r : InputTextResult) : settled := Resolved (inr r).

(** What reaches the last [then]: both [Promise.all] in a row. *)
Definition awaited (calls : list (option settled))
  : error + list (option InputTextResult) :=
  match promise_all (map await_fetch calls) with
  | inr results => promise_all (map await_json results)
  | inl e => inl e
  end.

(** [gpt > human] *)
Definition flagged (r : InputTextResult) : bool :=
  PrimFloat.ltb (human (score r)) (gpt (score r)).

(** The results after the highlight loop, positions counted from [idx]. *)
Fixpoint stamp_all (idx : nat) (rs : list (option InputTextResult))
  : list (option InputTextResult) :=
  match rs with
  | [] => []
  | r :: rs' => option_map (set_id (toString idx)) r :: stamp_all (S idx) rs'
  end.

(** The replacement buffer after the highlight loop. *)
Fixpoint mark_all (idx : nat) (rs : list (option InputTextResult))
  (texts : list string) : list string :=
  match rs, texts with
  | r :: rs', t :: texts' =>
      match r with
      | Some x => if flagged x then wrap idx t else t
      | None => t
      end :: mark_all (S idx) rs' texts'
  | _, _ => texts
  end.

(** The positions of the rendered buffer that hold the highlight marker of
    their own segment, with their own position as [id]. *)
Definition highlighted (texts rendered : list string) : list nat :=
  filter (fun i => String.eqb (nth i rendered "") (wrap i (nth i texts "")))
    (seq 0 (List.length rendered)).

(** The positions whose result has [gpt > human]. *)
Definition flagged_positions (rs : list (option InputTextResult)) : list nat :=
  filter (fun i => match nth i rs None with Some r => flagged r | None => false end)
    (seq 0 (List.length rs)).

(** The calls of a trace that carry the identifier [i]. *)
Definition calls_for (i : nat) (tr : list event) : list event :=
  filter (fun e => match e with Fetch j _ => Nat.eqb j i | _ => false end) tr.

(** The segments for which [verifyText] issues a call. *)
Definition nonempty (texts : list string) : list string :=
  filter (fun t => negb (String.eqb t "")) texts.

(** The events that are verification calls. *)
Definition is_fetch (e : event) : bool :=
  match e with Fetch _ _ => true | _ => false end.

(** The two parts of a run that the properties speak of. *)
Definition final_state (run : unit * AppState * list event) : AppState := snd (fst run).

Definition trace (run : unit * AppState * list event) : list event := snd run.

(** The state after the synchronous part of a submission. *)
Definition dispatched (st : AppState) : AppState :=
  {| innerHTML := strip_tags (innerHTML st); isLoading := true;
     shared_results := shared_results st; userDocument := userDocument st |}.

(** The state after the last [then]. *)
Definition published (rs : list (option InputTextResult)) (texts : list string)
  : AppState :=
  let inputTextResults := remove_empty (fst (highlight rs texts)) in
  let html := join "<br>" (snd (highlight rs texts)) in
  {| innerHTML := html; isLoading := false; shared_results := inputTextResults;
     userDocument :=
       {| content := html; rating := rate inputTextResults;
          results := inputTextResults |} |}.

(** The rating that the divisions by zero leave behind. *)
Definition undefined_rating : Rating :=
  {| rating_gpt := nan; rating_human := nan;
     rating_metrics :=
       {| overall_coherence := nan; overall_repetition := nan;
          overall_personality := nan; overall_originality := nan;
          errorTextCount := 0 |} |}.

(** In the trace [tr] every event that [b] recognises comes after one that
    [a] recognises. *)
Definition precedes (a b : event -> bool) (tr : list event) : Prop :=
  forall pre e post, tr = (pre ++ e :: post)%list -> b e = true -> existsb a pre = true.

(** The events that signal the loading flag as [flag]. *)
Definition is_loading (flag : bool) (e : event) : bool :=
  match e with SetIsLoading b => Bool.eqb b flag | _ => false end.

(** ** Sample data *)

(** A verification result as the endpoint returns it, with the given scores
    and details. *)
Definition sample_result (g h : float) (ds : list string) : InputTextResult :=
  {| id := "";
     score := {| gpt := g; human := h |};
     metrics := {| coherence := 0.5; repetition := 0.25; personality := 1;
                   originality := 0 |};
     details := ds |}.

(** An endpoint that answers every call with the same scores. *)
Definition constant_endpoint (g h : float) (ds : list string) : endpoint :=
  fun _ _ => Resolved (inr (sample_result g h ds)).

(** A state whose editable surface holds [html]. *)
Definition surface (html : string) : AppState :=
  {| innerHTML := html; isLoading := false; shared_results := [];
     userDocument :=
       {| content := html;
          rating := {| rating_gpt := 0; rating_human := 0;
                       rating_metrics :=
                         {| overall_coherence := 0; overall_repetition := 0;
                            overall_personality := 0; overall_originality := 0;
                            errorTextCount := 0 |} |};
          results := [] |} |}.

(** ** [TextInput]: input handling *)

(** [\s], among the code units below 256. *)
Definition is_space (c : ascii) : bool :=
  let n := nat_of_ascii c in
  ((9 <=? n)%nat && (n <=? 13)%nat) || (n =? 32)%nat || (n =? 160)%nat.

(** [[0-9]] *)
Definition is_digit (c : ascii) : bool :=
  let n := nat_of_ascii c in (48 <=? n)%nat && (n <=? 57)%nat.

(** The class of the pattern of [handleInput], under the [i] flag: white
    space, a letter, [=], [-], a digit or a double quote. *)
Definition span_attribute (c : ascii) : bool :=
  is_space c || is_letter c || Ascii.eqb c "=" || Ascii.eqb c "-"
  || is_digit c || Ascii.eqb c "034".

(** The class any number of times, then [>]: what follows. The class does not
    hold [>], so the run of the class has to end at it. *)
Fixpoint span_end (s : string) : option string :=
  match s with
  | EmptyString => None
  | String c s' =>
      if span_attribute c then span_end s'
      else if Ascii.eqb c ">" then Some s' else None
  end.

(** The lower-case letter [a] of a pattern under the [i] flag. *)
Definition same_letter (a c : ascii) : bool :=
  Ascii.eqb a c || Ascii.eqb (ascii_of_nat (nat_of_ascii a - 32)) c.

(** [strip_prefix] for a pattern of lower-case letters under the [i] flag. *)
Fixpoint strip_letters (p s : string) : option string :=
  match p, s with
  | EmptyString, _ => Some s
  | String a p', String c s' => if same_letter a c then strip_letters p' s' else None
  | String _ _, EmptyString => None
  end.

(** A match of the pattern of [handleInput] at the start of [s], a slash
    after the [<] being taken when there is one: what follows the match. *)
Definition match_span (s : string) : option string :=
  match s with
  | String c r =>
      if Ascii.eqb c "<" then
        let r :=
          match r with
          | String d r' => if Ascii.eqb d "/" then r' else r
          | EmptyString => r
          end in
        match strip_letters "span" r with
        | Some r' => span_end r'
        | None => None
        end
      else None
  | EmptyString => None
  end.

(** Whether [text.match(pattern)] finds anything. *)
Fixpoint has_span (s : string) : bool :=
  match s with
  | EmptyString => false
  | String _ s' =>
      match match_span s with
      | Some _ => true
      | None => has_span s'
      end
  end.

(** An element of the page, known by what removing a class from its class
    list makes of the markup of the editable surface. *)
Definition Element := string -> string -> string.

(** What [handleInput] reads of a selection: [anchorNode?.parentElement]. *)
Record Selection := { anchorParent : option Element }.

(** [paragraphElement.classList.remove(cls)], seen from the surface. *)
Definition classListRemove (paragraphElement : Element) (cls : string) : M unit :=
  fun st =>
    (tt,
     {| innerHTML := paragraphElement cls (innerHTML st); isLoading := isLoading st;
        shared_results := shared_results st; userDocument := userDocument st |},
     []).

(** [selection] is what [window.getSelection()] returns. *)
Definition handleInput (selection : option Selection) : M unit :=
  match selection with
  | None => ret tt
  | Some selection =>
      text <- getInnerHTML ;;
      (if has_span text then
         match anchorParent selection with
         | Some paragraphElement => classListRemove paragraphElement "border-b-2"
         | None => ret tt
         end
       else ret tt) ;;
      doc <- getUserDocument ;;
      html <- getInnerHTML ;;
      updateUserDocument (with_content doc html)
  end.


(** * Properties *)

(** ** Strings *)

Lemma append_empty_r (s : string) : s ++ "" = s.
Proof. induction s as [|c s IH]; simpl; [reflexivity | now rewrite IH]. Qed.

Lemma strip_prefix_app (p s r : string) : strip_prefix p s = Some r -> s = p ++ r.
Proof.
  revert s; induction p as [|a p IH]; intros [|b s]; simpl; try congruence.
  destruct (Ascii.eqb_spec a b) as [->|]; [|discriminate].
  intros H; now rewrite (IH _ H).
Qed.

Lemma split_on_not_nil (a : ascii) (sep s : string) : split_on a sep s <> [].
Proof.
  funelim (split_on a sep s); try discriminate.
  destruct (split_on a sep s'); discriminate.
Qed.

Lemma join_cons (sep x : string) (l : list string) :
  l <> [] -> join sep (x :: l) = x ++ sep ++ join sep l.
Proof. destruct l; [congruence | reflexivity]. Qed.

Lemma join_cons_head (sep : string) (c : ascii) (l : list string) :
  l <> [] -> join sep (cons_head c l) = String c (join sep l).
Proof.
  destruct l as [|h [|h' t]]; [congruence | reflexivity | reflexivity].
Qed.

Lemma join_split_on (a : ascii) (sep s : string) :
  join (String a sep) (split_on a sep s) = s.
Proof.
  funelim (split_on a sep s).
  - reflexivity.
  - rewrite join_cons; [|apply split_on_not_nil].
    rewrite H. symmetry. exact (strip_prefix_app _ _ _ e).
  - rewrite join_cons_head; [|apply split_on_not_nil].
    now rewrite H.
Qed.

(** C3: splitting a content string on the line-break marker, the empty
    content giving no segment at all, and joining the segments with the marker
    again gives the content back. *)
Theorem segments_join_roundtrip (C : string) : join "<br>" (segments C) = C.
Proof.
  unfold segments.
  destruct (String.eqb_spec C "") as [->|_]; [reflexivity|].
  apply join_split_on.
Qed.

(** ** Tag stripping *)

Lemma has_tag_cons (c : ascii) (s : string) :
  has_tag (String c s) = false -> match_tag (String c s) = None /\ has_tag s = false.
Proof.
  change (has_tag (String c s)) with
    (match match_tag (String c s) with Some _ => true | None => has_tag s end).
  destruct (match_tag (String c s)); [discriminate | now split].
Qed.

(** On a string in which the pattern matches nowhere the replacement changes
    nothing. *)
Lemma strip_tags_cleaned (s : string) : has_tag s = false -> strip_tags s = s.
Proof.
  funelim (strip_tags s); intros Hclean.
  - reflexivity.
  - apply has_tag_cons in Hclean. destruct Hclean as [Hnone _]. congruence.
  - apply has_tag_cons in Hclean. destruct Hclean as [_ Hrest].
    now rewrite H.
Qed.

(** C6: on a content that satisfies the cleaned-content invariant, no open
    or close tag other than a line-break marker at any position, stripping
    twice equals stripping once. *)
Theorem strip_tags_idempotent_on_cleaned (s : string) :
  has_tag s = false -> strip_tags (strip_tags s) = strip_tags s.
Proof.
  intros Hclean. now rewrite !(strip_tags_cleaned s Hclean).
Qed.

Lemma strip_tags_idempotent_on_cleaned_witness :
  has_tag "one<br>two<BR/>three" = false /\
  strip_tags (strip_tags "one<br>two<BR/>three") = strip_tags "one<br>two<BR/>three".
Proof.
  split; [reflexivity |].
  apply (strip_tags_idempotent_on_cleaned "one<br>two<BR/>three"). reflexivity.
Defined.

(** The output of one pass need not satisfy the invariant: a pass can bring
    the two halves of a tag together. *)
Example strip_tags_twice :
  strip_tags "<<i>b>" = "<b>" /\ strip_tags (strip_tags "<<i>b>") = "".
Proof. split; reflexivity. Qed.

(** ** Aggregate metrics *)

Lemma fold_accumulate (rs : list InputTextResult) (t : Totals) :
  fold_left accumulate rs t =
  let c := filter contributes rs in
  let m := overallMetrics t in
  {| overallGptScore := sum_from (overallGptScore t) (fun r => or_zero (gpt (score r))) c;
     overallHumanScore := sum_from (overallHumanScore t) (fun r => or_zero (human (score r))) c;
     overallMetrics :=
       {| overall_coherence :=
            sum_from (overall_coherence m) (fun r => or_zero (coherence (metrics r))) c;
          overall_repetition :=
            sum_from (overall_repetition m) (fun r => or_zero (repetition (metrics r))) c;
          overall_personality :=
            sum_from (overall_personality m) (fun r => or_zero (personality (metrics r))) c;
          overall_originality :=
            sum_from (overall_originality m) (fun r => or_zero (originality (metrics r))) c;
          errorTextCount :=
            Nat.iter (List.length c) (fun n => n + 1)%float (errorTextCount m) |} |}.
Proof.
  revert t; induction rs as [|r rs IH]; intros t.
  - destruct t as [g h []]; reflexivity.
  - cbn [fold_left filter]. rewrite IH. unfold accumulate.
    change (contributes r) with (0 <? List.length (details r))%nat.
    destruct (0 <? List.length (details r))%nat; [|reflexivity].
    cbn [overallGptScore overallHumanScore overallMetrics overall_coherence
         overall_repetition overall_personality overall_originality errorTextCount
         List.length sum_from fold_left].
    rewrite Nat.iter_succ_r. reflexivity.
Qed.

(** [x || 0] leaves a number as it is, NaN and the negative zero apart. *)
Example or_zero_values :
  or_zero 0.5 = 0.5%float /\ or_zero 0 = 0%float /\ or_zero nan = 0%float /\
  or_zero (-0) = 0%float /\ or_zero infinity = infinity.
Proof. repeat split; reflexivity. Qed.

(** The counter agrees with the integer it stands for. *)
Lemma counted_small (K : nat) : K <= 1024 -> counted K = of_length K.
Proof.
  intros HK.
  assert (E : map counted (seq 0 1025) = map of_length (seq 0 1025))
    by (vm_compute; reflexivity).
  apply (proj1 map_ext_in_iff E). apply in_seq. lia.
Qed.

(** C1, as amended: when exactly [K] of the filtered results have a details
    list that is not empty, each of the four sub-metrics is the sum of that
    metric over the [K] contributing results, a falsy value counting as [0],
    divided by [K] and multiplied by ten; the overall gpt and human
    percentages are the sums of the gpt and human scores over the same [K]
    contributing results, divided by the number of all the filtered results
    and multiplied by one hundred. *)
Theorem rate_aggregates (rs : list InputTextResult) (K : nat) :
  List.length (filter contributes rs) = K ->
  let c := filter contributes rs in
  let m := rating_metrics (rate rs) in
  overall_coherence m
    = (sum_of (fun r => or_zero (coherence (metrics r))) c / counted K * 10)%float /\
  overall_repetition m
    = (sum_of (fun r => or_zero (repetition (metrics r))) c / counted K * 10)%float /\
  overall_personality m
    = (sum_of (fun r => or_zero (personality (metrics r))) c / counted K * 10)%float /\
  overall_originality m
    = (sum_of (fun r => or_zero (originality (metrics r))) c / counted K * 10)%float /\
  errorTextCount m = counted K /\
  rating_gpt (rate rs)
    = (sum_of (fun r => or_zero (gpt (score r))) c
       / of_length (List.length rs) * 100)%float /\
  rating_human (rate rs)
    = (sum_of (fun r => or_zero (human (score r))) c
       / of_length (List.length rs) * 100)%float.
Proof.
  intros <-. unfold rate. rewrite fold_accumulate.
  repeat split; reflexivity.
Qed.

Lemma rate_aggregates_witness :
  let rs := [sample_result 0.75 0.25 ["flagged"]; sample_result 0.5 0.5 []] in
  List.length (filter contributes rs) = 1 /\
  rating_gpt (rate rs)
    = (sum_of (fun r => or_zero (gpt (score r))) (filter contributes rs)
       / of_length (List.length rs) * 100)%float /\
  rating_gpt (rate rs) = 37.5%float.
Proof.
  intros rs. split; [reflexivity | split; [| reflexivity]].
  destruct (rate_aggregates rs 1 eq_refl) as (_ & _ & _ & _ & _ & Hgpt & _).
  exact Hgpt.
Defined.

(** The claim as the specification states it fails: a result without details
    is left out of the overall sums, yet counted in the divisor. *)
Lemma overall_gpt_leaves_out_results_without_details :
  let rs := [sample_result 0.5 0.5 ["flagged"]; sample_result 0.5 0.5 []] in
  List.length (filter contributes rs) = 1 /\
  rating_gpt (rate rs) = 25%float /\
  overall_of_all (fun r => gpt (score r)) rs = 50%float /\
  rating_gpt (rate rs) <> overall_of_all (fun r => gpt (score r)) rs.
Proof.
  intros rs. repeat split; try reflexivity.
  intros H. apply (f_equal (fun x => PrimFloat.ltb x 30)) in H.
  vm_compute in H. discriminate.
Qed.

(** ** The submission pipeline, unfolded *)

Lemma map_indexed_verifyText (api : endpoint) (texts : list string) (idx : nat)
  (st : AppState) :
  map_indexed (verifyText api) idx texts st
  = (responses api idx texts, st, requests idx texts).
Proof.
  revert idx; induction texts as [|t texts IH]; intros idx; [reflexivity|].
  cbn [map_indexed responses requests]. unfold bind at 1.
  unfold verifyText at 1.
  destruct (String.eqb t "").
  - unfold ret at 1. unfold bind. rewrite IH.
    unfold ret. simpl. rewrite app_nil_r. reflexivity.
  - unfold bind, fetch, ret. cbv beta iota. rewrite IH.
    simpl. rewrite app_nil_r. reflexivity.
Qed.

Lemma handleSubmit_unfold (api : endpoint) (st : AppState) :
  let input := strip_tags (innerHTML st) in
  let texts := segments input in
  handleSubmit api st =
  match awaited (responses api 0 texts) with
  | inr rs =>
      (tt, published rs texts,
       (SetInnerHTML input :: requests 0 texts
        ++ [SetIsLoading true;
            SetInnerHTML (innerHTML (published rs texts));
            SetResults (shared_results (published rs texts));
            UpdateUserDocument (userDocument (published rs texts));
            SetIsLoading false])%list)
  | inl e =>
      (tt, dispatched st,
       (SetInnerHTML input :: requests 0 texts
        ++ [SetIsLoading true; ConsoleLog e])%list)
  end.
Proof.
  intros input texts. unfold handleSubmit, awaited.
  unfold bind at 1. unfold getInnerHTML at 1.
  unfold bind at 1. unfold setInnerHTML at 1. cbn [innerHTML].
  fold input. fold texts.
  unfold bind at 1. rewrite map_indexed_verifyText.
  unfold bind at 1. unfold setIsLoading at 1.
  cbn [innerHTML isLoading shared_results userDocument].
  destruct (promise_all (map await_fetch (responses api 0 texts))) as [e|results].
  - unfold consoleLog, dispatched. fold input. simpl. reflexivity.
  - destruct (promise_all (map await_json results)) as [e|rs].
    + unfold consoleLog, dispatched. fold input. simpl. reflexivity.
    + unfold on_results, published.
      destruct (highlight rs texts) as [rs' buf]. cbn [fst snd].
      unfold bind, setInnerHTML, setResults, getInnerHTML, updateUserDocument,
        setIsLoading.
      cbn [innerHTML isLoading shared_results userDocument].
      simpl. reflexivity.
Qed.

(** ** The highlight loop *)

Lemma stamp_middle (pre rs : list (option InputTextResult))
  (r : option InputTextResult) (s : string) :
  stamp (List.length pre) s (pre ++ r :: rs)%list
  = (pre ++ option_map (set_id s) r :: rs)%list.
Proof. induction pre as [|p pre IH]; simpl; [reflexivity | now rewrite IH]. Qed.

Lemma array_set_middle (pre texts : list string) (t x : string) :
  array_set (List.length pre) x (pre ++ t :: texts)%list = (pre ++ x :: texts)%list.
Proof. induction pre as [|p pre IH]; simpl; [reflexivity | now rewrite IH]. Qed.

Lemma array_get_middle (pre texts : list string) (t : string) :
  array_get (pre ++ t :: texts)%list (List.length pre) = t.
Proof. unfold array_get. apply nth_middle. Qed.

Lemma highlight_step_middle (pre_r rs : list (option InputTextResult))
  (pre_t texts : list string) (r : option InputTextResult) (t : string) :
  List.length pre_t = List.length pre_r ->
  highlight_step ((pre_r ++ r :: rs)%list, (pre_t ++ t :: texts)%list)
    (List.length pre_r)
  = ((pre_r ++ option_map (set_id (toString (List.length pre_r))) r :: rs)%list,
     (pre_t ++ match r with
               | Some x => if flagged x then wrap (List.length pre_r) t else t
               | None => t
               end :: texts)%list).
Proof.
  intros Hlen. unfold highlight_step. rewrite nth_middle.
  destruct r as [x|]; [|reflexivity].
  rewrite stamp_middle. fold (flagged x). rewrite <- Hlen.
  destruct (flagged x); [|reflexivity].
  now rewrite array_set_middle, array_get_middle.
Qed.

Lemma highlight_from (rs : list (option InputTextResult)) :
  forall (texts : list string) (pre_r : list (option InputTextResult))
    (pre_t : list string),
  List.length pre_t = List.length pre_r ->
  List.length texts = List.length rs ->
  fold_left highlight_step (seq (List.length pre_r) (List.length rs))
    ((pre_r ++ rs)%list, (pre_t ++ texts)%list)
  = ((pre_r ++ stamp_all (List.length pre_r) rs)%list,
     (pre_t ++ mark_all (List.length pre_r) rs texts)%list).
Proof.
  induction rs as [|r rs IH]; intros texts pre_r pre_t Hpre Hlen.
  - destruct texts; [reflexivity | discriminate].
  - destruct texts as [|t texts]; [discriminate|].
    cbn [List.length seq fold_left stamp_all mark_all].
    rewrite highlight_step_middle by exact Hpre.
    set (r' := option_map _ r). set (t' := match r with Some _ => _ | None => _ end).
    replace (pre_r ++ r' :: rs)%list with ((pre_r ++ [r']) ++ rs)%list
      by now rewrite <- app_assoc.
    replace (pre_t ++ t' :: texts)%list with ((pre_t ++ [t']) ++ texts)%list
      by now rewrite <- app_assoc.
    replace (S (List.length pre_r)) with (List.length (pre_r ++ [r'])%list)
      by (rewrite length_app; simpl; lia).
    rewrite IH.
    + now rewrite <- !app_assoc.
    + rewrite !length_app. simpl. lia.
    + simpl in Hlen. lia.
Qed.

(** The loop stamps every result that exists with its position and wraps the
    buffered text of the positions whose gpt score is the greater one. *)
Lemma highlight_spec (rs : list (option InputTextResult)) (texts : list string) :
  List.length texts = List.length rs ->
  highlight rs texts = (stamp_all 0 rs, mark_all 0 rs texts).
Proof.
  intros Hlen. unfold highlight.
  exact (highlight_from rs texts [] [] eq_refl Hlen).
Qed.

(** ** What the calls settle to *)

Lemma awaited_resolved (rs : list (option InputTextResult)) :
  awaited (map (option_map resolved) rs) = inr rs.
Proof.
  unfold awaited.
  assert (E1 : promise_all (map await_fetch (map (option_map resolved) rs))
               = inr (map (option_map inr) rs)).
  { induction rs as [|[r|] rs IH]; simpl; [reflexivity | |]; now rewrite IH. }
  rewrite E1. clear E1.
  induction rs as [|[r|] rs IH]; simpl; [reflexivity | |]; now rewrite IH.
Qed.

Lemma awaited_inr (calls : list (option settled))
  (rs : list (option InputTextResult)) :
  awaited calls = inr rs -> calls = map (option_map resolved) rs.
Proof.
  unfold awaited. revert rs.
  induction calls as [|c calls IH]; intros rs.
  - simpl. intros [= <-]. reflexivity.
  - simpl.
    destruct c as [[[e|r]|e]|]; simpl;
      destruct (promise_all (map await_fetch calls)) as [e'|results];
      simpl; try discriminate.
    + destruct (promise_all (map await_json results)) as [e'|rs']; [discriminate|].
      intros [= <-]. simpl. now rewrite (IH rs' eq_refl).
    + destruct (promise_all (map await_json results)) as [e'|rs']; [discriminate|].
      intros [= <-]. simpl. now rewrite (IH rs' eq_refl).
Qed.

Lemma responses_length (api : endpoint) (texts : list string) (idx : nat) :
  List.length (responses api idx texts) = List.length texts.
Proof.
  revert idx; induction texts as [|t texts IH]; intros idx; simpl; [reflexivity|].
  now rewrite IH.
Qed.

Lemma nth_error_responses (api : endpoint) (texts : list string) (idx i : nat)
  (t : string) :
  nth_error texts i = Some t ->
  nth_error (responses api idx texts) i
  = Some (if String.eqb t "" then None else Some (api (idx + i) t)).
Proof.
  revert idx i; induction texts as [|u texts IH]; intros idx [|i]; simpl;
    try discriminate.
  - intros [= ->]. now rewrite Nat.add_0_r.
  - intros H. rewrite (IH (S idx) i H).
    replace (S idx + i) with (idx + S i) by lia. reflexivity.
Qed.

(** ** The rendered buffer *)

Lemma length_append (s1 s2 : string) :
  String.length (s1 ++ s2) = String.length s1 + String.length s2.
Proof. induction s1 as [|c s1 IH]; simpl; [reflexivity | now rewrite IH]. Qed.

Lemma wrap_neq (i : nat) (t : string) : wrap i t <> t.
Proof.
  intros H. apply (f_equal String.length) in H.
  unfold wrap in H. rewrite !length_append in H. simpl in H. lia.
Qed.

Lemma mark_all_length (rs : list (option InputTextResult)) (texts : list string)
  (idx : nat) :
  List.length (mark_all idx rs texts) = List.length texts.
Proof.
  revert texts idx; induction rs as [|r rs IH]; intros [|t texts] idx; simpl;
    try reflexivity.
  now rewrite IH.
Qed.

Lemma nth_mark_all (rs : list (option InputTextResult)) (texts : list string)
  (idx i : nat) :
  i < List.length texts ->
  nth i (mark_all idx rs texts) ""
  = match nth i rs None with
    | Some x => if flagged x then wrap (idx + i) (nth i texts "") else nth i texts ""
    | None => nth i texts ""
    end.
Proof.
  revert texts idx i; induction rs as [|r rs IH]; intros [|t texts] idx i Hi;
    simpl in Hi; try lia.
  - simpl. now destruct i.
  - destruct i as [|i]; simpl.
    + now rewrite Nat.add_0_r.
    + rewrite IH by lia. now rewrite Nat.add_succ_r.
Qed.

Lemma nth_error_stamp_all (rs : list (option InputTextResult)) (idx i : nat) :
  nth_error (stamp_all idx rs) i
  = option_map (option_map (set_id (toString (idx + i)))) (nth_error rs i).
Proof.
  revert idx i; induction rs as [|r rs IH]; intros idx [|i]; simpl;
    try reflexivity.
  - now rewrite Nat.add_0_r.
  - rewrite IH. now rewrite Nat.add_succ_r.
Qed.

Lemma stamp_all_length (rs : list (option InputTextResult)) (idx : nat) :
  List.length (stamp_all idx rs) = List.length rs.
Proof.
  revert idx; induction rs as [|r rs IH]; intros idx; simpl; [reflexivity|].
  now rewrite IH.
Qed.

(** When every position has a result the filter keeps them all. *)
Lemma remove_empty_stamp_all_some (results : list InputTextResult) (idx : nat) :
  stamp_all idx (map Some results)
  = map Some (remove_empty (stamp_all idx (map Some results))).
Proof.
  revert idx; induction results as [|r results IH]; intros idx; simpl;
    [reflexivity|].
  now rewrite <- IH.
Qed.

Lemma count_flagged_positions (results : list InputTextResult) :
  List.length (flagged_positions (map Some results))
  = List.length (filter flagged results).
Proof.
  unfold flagged_positions. rewrite length_map.
  induction results as [|r results IH] using rev_ind; [reflexivity|].
  rewrite length_app. simpl List.length. rewrite Nat.add_1_r, seq_S.
  rewrite !filter_app, !length_app. simpl Nat.add.
  rewrite <- IH. f_equal.
  - f_equal. apply filter_ext_in. intros i Hi. apply in_seq in Hi.
    rewrite map_app, app_nth1 by (rewrite length_map; lia). reflexivity.
  - cbn [filter]. rewrite map_app.
    replace (List.length results) with (List.length (map Some results)) at 1
      by apply length_map.
    cbn [map]. rewrite nth_middle. now destruct (flagged r).
Qed.

(** ** Highlighting *)

Lemma nth_map_some (results : list InputTextResult) (i : nat) (r : InputTextResult) :
  nth_error results i = Some r -> nth i (map Some results) None = Some r.
Proof.
  intros H. apply nth_error_nth. rewrite nth_error_map, H. reflexivity.
Qed.

Lemma nth_error_lt {A} (l : list A) (i : nat) (x : A) :
  nth_error l i = Some x -> i < List.length l.
Proof. intros H. apply nth_error_Some. congruence. Qed.

(** ** Splitting a joined buffer *)

Lemma split_on_match (a : ascii) (sep s rest : string) :
  s <> "" -> strip_prefix (String a sep) s = Some rest ->
  split_on a sep s = "" :: split_on a sep rest.
Proof.
  funelim (split_on a sep s); intros Hne Hp.
  - congruence.
  - congruence.
  - congruence.
Qed.

Lemma split_on_skip (a : ascii) (sep : string) (c : ascii) (s : string) :
  strip_prefix (String a sep) (String c s) = None ->
  split_on a sep (String c s) = cons_head c (split_on a sep s).
Proof.
  remember (String c s) as s0 eqn:E. revert c s E.
  funelim (split_on a sep s0); intros c0 s0 E Hp.
  - discriminate.
  - congruence.
  - now injection E as -> ->.
Qed.

Lemma occurs_cons (p : string) (c : ascii) (s : string) :
  occurs p (String c s) = false ->
  strip_prefix p (String c s) = None /\ occurs p s = false.
Proof.
  cbn [occurs]. destruct (strip_prefix p (String c s)); [discriminate | now split].
Qed.

Lemma split_on_whole (a : ascii) (sep x : string) :
  occurs (String a sep) x = false -> split_on a sep x = [x].
Proof.
  induction x as [|c x IH]; intros H; [reflexivity|].
  apply occurs_cons in H. destruct H as [Hp Hx].
  rewrite split_on_skip by exact Hp. now rewrite IH.
Qed.

(** A line-break marker does not begin inside a string that is followed by
    nothing or by a [<]. *)
Lemma br_no_straddle (x y : string) :
  x <> "" -> strip_prefix "<br>" x = None ->
  y = "" \/ (exists y', y = String "<" y') ->
  strip_prefix "<br>" (x ++ y) = None.
Proof.
  intros Hne Hp Hy.
  destruct x as [|c0 [|c1 [|c2 [|c3 x]]]]; [congruence | | | |];
    destruct Hy as [->|[y' ->]]; cbn [strip_prefix append] in *;
    repeat match goal with
           | |- context [Ascii.eqb ?a ?b] =>
               tryif is_var b then destruct (Ascii.eqb a b)
               else (let v := eval vm_compute in (Ascii.eqb a b) in
                     change (Ascii.eqb a b) with v)
           end; try reflexivity; try discriminate; exact Hp.
Qed.

Lemma split_br_app (x rest : string) :
  occurs "<br>" x = false ->
  split "<br>" (x ++ "<br>" ++ rest) = x :: split "<br>" rest.
Proof.
  unfold split. induction x as [|c x IH]; intros H.
  - apply split_on_match; [discriminate | reflexivity].
  - apply occurs_cons in H. destruct H as [Hp Hx].
    change (String c x ++ "<br>" ++ rest) with (String c (x ++ "<br>" ++ rest)).
    rewrite split_on_skip.
    + now rewrite IH.
    + apply (br_no_straddle (String c x) ("<br>" ++ rest)); [discriminate | exact Hp |].
      right. eexists. reflexivity.
Qed.

Lemma split_br_join (l : list string) :
  l <> [] -> Forall (fun x => occurs "<br>" x = false) l ->
  split "<br>" (join "<br>" l) = l.
Proof.
  induction l as [|x l IH]; intros Hne Hall; [congruence|].
  inversion Hall as [|? ? Hx Hl]; subst.
  destruct l as [|y l].
  - apply split_on_whole. exact Hx.
  - rewrite join_cons by discriminate.
    rewrite split_br_app by exact Hx.
    now rewrite IH.
Qed.

Lemma strip_prefix_app_none (p x y : string) :
  strip_prefix p (x ++ y) = None -> strip_prefix p x = None.
Proof.
  revert x; induction p as [|a p IH]; intros [|b x]; simpl; intros H;
    try reflexivity; try discriminate H.
  destruct (Ascii.eqb a b); [now apply IH | reflexivity].
Qed.

Lemma join_head (sep h : string) (t : list string) :
  exists y, join sep (h :: t) = h ++ y.
Proof.
  destruct t as [|h' t].
  - exists "". simpl. now rewrite append_empty_r.
  - eexists. reflexivity.
Qed.

(** No segment of a split contains the separator. *)
Lemma split_on_no_sep (a : ascii) (sep s : string) :
  Forall (fun x => occurs (String a sep) x = false) (split_on a sep s).
Proof.
  funelim (split_on a sep s).
  - constructor; [reflexivity | constructor].
  - constructor; [reflexivity | assumption].
  - pose proof (join_split_on a sep s') as Hjoin.
    destruct (split_on a sep s') as [|h t] eqn:Hs;
      [now apply split_on_not_nil in Hs|].
    inversion H as [|? ? Hh Ht]; subst. cbn [cons_head].
    constructor; [|exact Ht].
    cbn [occurs].
    destruct (join_head (String a sep) h t) as [y Hy].
    pose proof e as Hnone. rewrite Hy in Hnone.
    change (String c (h ++ y)) with (String c h ++ y) in Hnone.
    apply strip_prefix_app_none in Hnone. rewrite Hnone. exact Hh.
Qed.

Lemma occurs_br_skip (c : ascii) (s : string) :
  c <> "<"%char -> occurs "<br>" (String c s) = occurs "<br>" s.
Proof.
  intros Hc. cbn [occurs strip_prefix].
  destruct (Ascii.eqb_spec "<" c) as [E|_]; [congruence | reflexivity].
Qed.

Lemma occurs_br_lt (d : ascii) (s : string) :
  d <> "b"%char ->
  occurs "<br>" (String "<" (String d s)) = occurs "<br>" (String d s).
Proof.
  intros Hd. cbn [occurs strip_prefix].
  rewrite Ascii.eqb_refl.
  destruct (Ascii.eqb_spec "b" d) as [E|_]; [congruence | reflexivity].
Qed.

Lemma occurs_br_no_lt (x rest : string) :
  count_char "<" x = 0 -> occurs "<br>" (x ++ rest) = occurs "<br>" rest.
Proof.
  induction x as [|c x IH]; intros H; [reflexivity|].
  cbn [count_char] in H.
  destruct (Ascii.eqb_spec "<" c) as [E|Hc]; [discriminate|].
  change (String c x ++ rest) with (String c (x ++ rest)).
  rewrite occurs_br_skip by congruence. apply IH. exact H.
Qed.

Lemma occurs_br_app (x y : string) :
  occurs "<br>" x = false -> occurs "<br>" y = false ->
  y = "" \/ (exists y', y = String "<" y') ->
  occurs "<br>" (x ++ y) = false.
Proof.
  intros Hx Hy Hstart. induction x as [|c x IH]; [exact Hy|].
  apply occurs_cons in Hx. destruct Hx as [Hp Hx].
  change (String c x ++ y) with (String c (x ++ y)). cbn [occurs].
  change (String c (x ++ y)) with (String c x ++ y).
  rewrite (br_no_straddle (String c x) y) by (discriminate || assumption).
  now apply IH.
Qed.

Lemma string_of_uint_no_lt (d : Decimal.uint) :
  count_char "<" (NilEmpty.string_of_uint d) = 0.
Proof. induction d; simpl; assumption || reflexivity. Qed.

Lemma toString_no_lt (i : nat) : count_char "<" (toString i) = 0.
Proof. apply string_of_uint_no_lt. Qed.

Lemma toString_inj (i j : nat) : toString i = toString j -> i = j.
Proof.
  unfold toString. intros H.
  apply (f_equal NilEmpty.uint_of_string) in H.
  rewrite !NilEmpty.usu in H. injection H as H.
  apply (f_equal Nat.of_uint) in H.
  now rewrite !DecimalNat.Unsigned.of_to in H.
Qed.

(** The highlight marker brings no line-break marker with it. *)
Lemma occurs_br_wrap (i : nat) (t : string) :
  occurs "<br>" t = false -> occurs "<br>" (wrap i t) = false.
Proof.
  intros Ht. unfold wrap, dquote. cbn [append].
  rewrite occurs_br_lt by discriminate.
  repeat rewrite occurs_br_skip by discriminate.
  rewrite occurs_br_no_lt by apply toString_no_lt.
  repeat rewrite occurs_br_skip by discriminate.
  apply occurs_br_app; [exact Ht | reflexivity |].
  right. eexists. reflexivity.
Qed.

Lemma segments_no_br (input : string) :
  Forall (fun x => occurs "<br>" x = false) (segments input).
Proof.
  unfold segments. destruct (String.eqb input ""); [constructor|].
  apply split_on_no_sep.
Qed.

Lemma segments_not_single_empty (input : string) : segments input <> [""].
Proof.
  unfold segments. destruct (String.eqb_spec input "") as [->|Hne]; [discriminate|].
  intros H. apply Hne. rewrite <- (join_split_on "<" "br>" input).
  change (split_on "<" "br>" input) with (split "<br>" input). now rewrite H.
Qed.

Lemma mark_all_no_br (rs : list (option InputTextResult)) (texts : list string)
  (idx : nat) :
  Forall (fun x => occurs "<br>" x = false) texts ->
  Forall (fun x => occurs "<br>" x = false) (mark_all idx rs texts).
Proof.
  revert texts idx; induction rs as [|r rs IH]; intros [|t texts] idx H;
    cbn [mark_all]; try assumption.
  inversion H as [|? ? Ht Htexts]; subst.
  constructor; [|now apply IH].
  destruct r as [x|]; [|exact Ht].
  destruct (flagged x); [now apply occurs_br_wrap | exact Ht].
Qed.

Lemma mark_all_single_empty (rs : list (option InputTextResult))
  (texts : list string) (idx : nat) :
  mark_all idx rs texts = [""] -> texts = [""].
Proof.
  destruct rs as [|r rs]; [now destruct texts|].
  destruct texts as [|t texts]; [discriminate|].
  cbn [mark_all]. intros H. injection H as Ht Hrest.
  assert (Htexts : texts = []).
  { apply (f_equal (@List.length _)) in Hrest. rewrite mark_all_length in Hrest.
    now destruct texts. }
  subst texts. f_equal.
  destruct r as [x|]; [|exact Ht].
  destruct (flagged x); [|exact Ht].
  unfold wrap in Ht. discriminate Ht.
Qed.

(** A buffer whose entries hold no line-break marker is read back from its
    join, the single empty entry apart. *)
Lemma segments_join (l : list string) :
  Forall (fun x => occurs "<br>" x = false) l -> l <> [""] ->
  segments (join "<br>" l) = l.
Proof.
  intros Hall Hne. unfold segments.
  destruct l as [|x [|y l]].
  - reflexivity.
  - cbn [join String.concat].
    destruct (String.eqb_spec x "") as [->|_]; [congruence|].
    apply split_on_whole. now inversion Hall.
  - assert (E : String.eqb (join "<br>" (x :: y :: l)) "" = false).
    { apply String.eqb_neq. intros H. apply (f_equal String.length) in H.
      rewrite join_cons in H by discriminate.
      rewrite !length_append in H. simpl in H. lia. }
    rewrite E. apply split_br_join; [discriminate | exact Hall].
Qed.

(** The segments of the re-rendered content are the entries of the
    replacement buffer. *)
Lemma segments_rendered (input : string) (rs : list (option InputTextResult))
  (idx : nat) :
  segments (join "<br>" (mark_all idx rs (segments input)))
  = mark_all idx rs (segments input).
Proof.
  apply segments_join.
  - apply mark_all_no_br, segments_no_br.
  - intros H. apply mark_all_single_empty in H.
    now apply segments_not_single_empty in H.
Qed.

(** ** Where the published results come from *)

Lemma in_requests (idx : nat) (texts : list string) (e : event) :
  In e (requests idx texts) -> is_fetch e = true.
Proof.
  revert idx; induction texts as [|t texts IH]; intros idx; simpl; [tauto|].
  rewrite in_app_iff. intros [H|H]; [|now apply IH in H].
  destruct (String.eqb t ""); [destruct H|].
  destruct H as [<-|[]]. reflexivity.
Qed.

Lemma remove_empty_length (l : list (option InputTextResult)) :
  List.length (remove_empty l) <= List.length l.
Proof. induction l as [|[r|] l IH]; simpl; lia. Qed.

Lemma in_remove_empty_stamp_all (rs : list (option InputTextResult)) (idx : nat)
  (r : InputTextResult) :
  In r (remove_empty (stamp_all idx rs)) ->
  exists i r0, nth_error rs i = Some (Some r0) /\ r = set_id (toString (idx + i)) r0.
Proof.
  revert idx; induction rs as [|[x|] rs IH]; intros idx; simpl; [tauto | |].
  - intros [<-|H].
    + exists 0, x. now rewrite Nat.add_0_r.
    + destruct (IH _ H) as (i & r0 & Hi & ->).
      exists (S i), r0. split; [exact Hi|]. now rewrite Nat.add_succ_r.
  - intros H. destruct (IH _ H) as (i & r0 & Hi & ->).
    exists (S i), r0. split; [exact Hi|]. now rewrite Nat.add_succ_r.
Qed.

(** What [awaited] hands over is aligned with the segments: a position holds a
    result exactly when its segment is not empty, and the result is the
    answer to the call for that segment. *)
Lemma awaited_aligned (api : endpoint) (texts : list string)
  (rs : list (option InputTextResult)) :
  awaited (responses api 0 texts) = inr rs ->
  List.length rs = List.length texts /\
  forall i t, nth_error texts i = Some t ->
    if String.eqb t "" then nth_error rs i = Some None
    else exists r0, nth_error rs i = Some (Some r0) /\ api i t = resolved r0.
Proof.
  intros H. apply awaited_inr in H.
  split.
  - apply (f_equal (@List.length _)) in H.
    now rewrite responses_length, length_map in H.
  - intros i t Hi.
    apply (f_equal (fun l => nth_error l i)) in H.
    rewrite (nth_error_responses api texts 0 i t Hi), nth_error_map in H.
    simpl in H.
    destruct (String.eqb t "").
    + destruct (nth_error rs i) as [[r0|]|]; simpl in H; try discriminate.
      reflexivity.
    + destruct (nth_error rs i) as [[r0|]|]; simpl in H; try discriminate.
      exists r0. split; [reflexivity|]. now injection H.
Qed.

(** ** The trace of a submission *)

Lemma trace_shape (api : endpoint) (st : AppState) :
  let input := strip_tags (innerHTML st) in
  exists tail,
    trace (handleSubmit api st)
    = (SetInnerHTML input :: requests 0 (segments input) ++ SetIsLoading true :: tail)%list
    /\ Forall (fun e => is_fetch e = false) tail.
Proof.
  intros input. pose proof (handleSubmit_unfold api st) as E. cbv zeta in E.
  fold input in E. rewrite E.
  destruct (awaited (responses api 0 (segments input))) as [e|rs];
    eexists; (split; [reflexivity|]); repeat constructor.
Qed.

Lemma published_results_origin (api : endpoint) (st : AppState)
  (inputTextResults : list InputTextResult) :
  let texts := segments (strip_tags (innerHTML st)) in
  In (SetResults inputTextResults) (trace (handleSubmit api st)) ->
  exists rs,
    awaited (responses api 0 texts) = inr rs /\
    inputTextResults = remove_empty (stamp_all 0 rs) /\
    final_state (handleSubmit api st) = published rs texts.
Proof.
  intros texts. pose proof (handleSubmit_unfold api st) as E. cbv zeta in E.
  fold texts in E. rewrite E.
  destruct (awaited (responses api 0 texts)) as [e|rs] eqn:Haw;
    unfold trace, final_state; cbn [fst snd]; intros [H|H]; try discriminate H;
    apply in_app_iff in H; destruct H as [H|H];
    try (apply in_requests in H; discriminate H).
  - simpl in H. destruct H as [H|[H|[]]]; discriminate H.
  - exists rs. split; [reflexivity|]. split; [|reflexivity].
    simpl in H. destruct H as [H|[H|[H|[H|[H|[]]]]]]; try discriminate H.
    injection H as <-. unfold published. cbn [shared_results].
    apply awaited_aligned in Haw. destruct Haw as [Hlen _].
    now rewrite highlight_spec.
Qed.

Lemma published_state (api : endpoint) (st : AppState)
  (rs : list (option InputTextResult)) :
  let texts := segments (strip_tags (innerHTML st)) in
  awaited (responses api 0 texts) = inr rs ->
  innerHTML (published rs texts) = join "<br>" (mark_all 0 rs texts) /\
  shared_results (published rs texts) = remove_empty (stamp_all 0 rs).
Proof.
  intros texts Haw. apply awaited_aligned in Haw. destruct Haw as [Hlen _].
  unfold published. cbn [innerHTML shared_results].
  now rewrite highlight_spec.
Qed.

(** After a submission the surface holds as many segments as were sent. *)
Lemma rendered_segments (api : endpoint) (st : AppState) :
  let texts := segments (strip_tags (innerHTML st)) in
  exists rs : list (option InputTextResult),
    segments (innerHTML (final_state (handleSubmit api st))) = mark_all 0 rs texts /\
    forall i t, nth_error texts i = Some t -> t = "" -> nth i rs None = None.
Proof.
  intros texts. pose proof (handleSubmit_unfold api st) as E. cbv zeta in E.
  fold texts in E. rewrite E.
  destruct (awaited (responses api 0 texts)) as [e|rs] eqn:Haw;
    unfold final_state; cbn [fst snd].
  - exists []. split; [|now destruct i]. unfold dispatched. cbn [innerHTML].
    fold texts. now destruct texts.
  - exists rs. destruct (published_state api st rs Haw) as [Hhtml _].
    fold texts in Hhtml. rewrite Hhtml. split.
    + apply segments_rendered.
    + intros i t Hi ->. apply awaited_aligned in Haw. destruct Haw as [_ Hal].
      specialize (Hal i "" Hi). simpl in Hal.
      now apply nth_error_nth.
Qed.

Lemma calls_for_no_fetch (i : nat) (tr : list event) :
  Forall (fun e => is_fetch e = false) tr -> calls_for i tr = [].
Proof.
  induction 1 as [|e tr He _ IH]; [reflexivity|].
  unfold calls_for in *. cbn [filter]. rewrite IH.
  destruct e; try reflexivity. discriminate He.
Qed.

Lemma calls_for_requests_lt (j idx : nat) (texts : list string) :
  j < idx -> calls_for j (requests idx texts) = [].
Proof.
  revert idx; induction texts as [|t texts IH]; intros idx Hj; [reflexivity|].
  cbn [requests]. unfold calls_for in *. rewrite filter_app, IH by lia.
  destruct (String.eqb t ""); [reflexivity|]. cbn [filter].
  destruct (Nat.eqb_spec idx j); [lia | reflexivity].
Qed.

Lemma calls_for_requests (texts : list string) (idx i : nat) (t : string) :
  nth_error texts i = Some t ->
  calls_for (idx + i) (requests idx texts)
  = if String.eqb t "" then [] else [Fetch (idx + i) t].
Proof.
  revert idx i; induction texts as [|u texts IH]; intros idx [|i] Hi;
    try discriminate Hi; cbn [requests]; unfold calls_for; rewrite filter_app.
  - injection Hi as ->. rewrite Nat.add_0_r.
    fold (calls_for idx (requests (S idx) texts)).
    rewrite calls_for_requests_lt by lia. rewrite app_nil_r.
    destruct (String.eqb t ""); [reflexivity|].
    cbn [filter]. now rewrite Nat.eqb_refl.
  - simpl in Hi. fold (calls_for (idx + S i) (requests (S idx) texts)).
    replace (idx + S i) with (S idx + i) by lia.
    rewrite (IH (S idx) i Hi).
    destruct (String.eqb u ""); [reflexivity|]. cbn [filter].
    destruct (Nat.eqb_spec idx (S idx + i)); [lia | reflexivity].
Qed.

Lemma calls_for_trace (api : endpoint) (st : AppState) (i : nat) (t : string) :
  let texts := segments (strip_tags (innerHTML st)) in
  nth_error texts i = Some t ->
  calls_for i (trace (handleSubmit api st))
  = if String.eqb t "" then [] else [Fetch i t].
Proof.
  intros texts Hi. destruct (trace_shape api st) as (tail & -> & Htail).
  fold texts. unfold calls_for. cbn [filter]. rewrite filter_app. cbn [filter].
  fold (calls_for i (requests 0 texts)). fold (calls_for i tail).
  rewrite (calls_for_no_fetch i tail Htail), app_nil_r.
  exact (calls_for_requests texts 0 i t Hi).
Qed.

(** A result that is published answers the call for the segment its stamped
    [id] names. *)
Lemma published_result_position (api : endpoint) (st : AppState)
  (inputTextResults : list InputTextResult) (r : InputTextResult) :
  let texts := segments (strip_tags (innerHTML st)) in
  In (SetResults inputTextResults) (trace (handleSubmit api st)) ->
  In r inputTextResults ->
  exists i t r0,
    id r = toString i /\ nth_error texts i = Some t /\ t <> "" /\
    api i t = resolved r0 /\ r = set_id (toString i) r0.
Proof.
  intros texts Hpub Hr.
  destruct (published_results_origin api st _ Hpub) as (rs & Haw & -> & _).
  fold texts in Haw.
  apply in_remove_empty_stamp_all in Hr. destruct Hr as (i & r0 & Hi & ->).
  simpl Nat.add.
  destruct (awaited_aligned api texts rs Haw) as [Hlen Hal].
  destruct (nth_error texts i) as [t|] eqn:Ht.
  - specialize (Hal i t Ht).
    destruct (String.eqb t "") eqn:Hne; [congruence|].
    apply String.eqb_neq in Hne.
    destruct Hal as (r1 & Hr1 & Hapi).
    exists i, t, r0. repeat split; try assumption. congruence.
  - apply nth_error_None in Ht. apply nth_error_lt in Hi. lia.
Qed.

(** C8: after every submission the displayed content has as many segments
    as were sent for verification, while the published results may be fewer;
    and the position stamped on a published result is the position of the
    segment it was computed for, and of no other. *)
Theorem segments_and_results_correlated (api : endpoint) (st : AppState) :
  let texts := segments (strip_tags (innerHTML st)) in
  let run := handleSubmit api st in
  List.length (segments (innerHTML (final_state run))) = List.length texts /\
  forall inputTextResults, In (SetResults inputTextResults) (trace run) ->
    List.length inputTextResults <= List.length texts /\
    forall r, In r inputTextResults ->
      exists i t r0,
        id r = toString i /\ (forall j, id r = toString j -> j = i) /\
        nth_error texts i = Some t /\ t <> "" /\
        api i t = resolved r0 /\ r = set_id (toString i) r0.
Proof.
  intros texts run. split.
  - destruct (rendered_segments api st) as (rs & Hseg & _).
    fold run in Hseg. rewrite Hseg. apply mark_all_length.
  - intros inputTextResults Hpub. split.
    + destruct (published_results_origin api st _ Hpub) as (rs & Haw & -> & _).
      destruct (awaited_aligned api _ rs Haw) as [Hlen _].
      fold texts in Hlen. rewrite <- Hlen, <- (stamp_all_length rs 0).
      apply remove_empty_length.
    + intros r Hr.
      destruct (published_result_position api st _ r Hpub Hr)
        as (i & t & r0 & Hid & Ht & Hne & Hapi & Hr0).
      exists i, t, r0. repeat split; try assumption.
      intros j Hj. apply toString_inj. congruence.
Qed.

Lemma segments_and_results_correlated_witness :
  let api := constant_endpoint 0.75 0.25 ["flagged"] in
  let run := handleSubmit api (surface "<br>two") in
  List.length (segments (innerHTML (final_state run))) = 2 /\
  In (SetResults [set_id "1" (sample_result 0.75 0.25 ["flagged"])]) (trace run) /\
  List.length [set_id "1" (sample_result 0.75 0.25 ["flagged"])] <= 2.
Proof.
  intros api run.
  destruct (segments_and_results_correlated api (surface "<br>two")) as [Hseg Hres].
  assert (Hpub : In (SetResults [set_id "1" (sample_result 0.75 0.25 ["flagged"])])
                   (trace run)).
  { vm_compute. do 4 right. left. reflexivity. }
  split; [exact Hseg|]. split; [exact Hpub|].
  exact (proj1 (Hres _ Hpub)).
Defined.

(** ** Calls and empty segments *)

Lemma requests_length (idx : nat) (texts : list string) :
  List.length (requests idx texts) = List.length (nonempty texts).
Proof.
  revert idx; induction texts as [|t texts IH]; intros idx; [reflexivity|].
  cbn [requests nonempty filter]. rewrite length_app, IH.
  now destruct (String.eqb t "").
Qed.

Lemma filter_fetch_requests (idx : nat) (texts : list string) :
  filter is_fetch (requests idx texts) = requests idx texts.
Proof.
  apply forallb_filter_id. apply forallb_forall.
  intros e He. now apply in_requests in He.
Qed.

Lemma filter_fetch_none (tr : list event) :
  Forall (fun e => is_fetch e = false) tr -> filter is_fetch tr = [].
Proof.
  induction 1 as [|e tr He _ IH]; [reflexivity|].
  cbn [filter]. now rewrite He, IH.
Qed.

Lemma published_count (api : endpoint) (texts : list string)
  (rs : list (option InputTextResult)) (idx idx' : nat) :
  responses api idx texts = map (option_map resolved) rs ->
  List.length (remove_empty (stamp_all idx' rs)) = List.length (nonempty texts).
Proof.
  revert rs idx idx'; induction texts as [|t texts IH]; intros [|r rs] idx idx' H;
    try discriminate H; [reflexivity|].
  cbn [responses map] in H. injection H as Hhead Htail.
  cbn [stamp_all nonempty filter]. specialize (IH rs (S idx) (S idx') Htail).
  destruct (String.eqb t ""); destruct r as [x|]; try discriminate Hhead;
    cbn [option_map remove_empty negb List.length]; now rewrite IH.
Qed.

(** C4: a submission issues, for every segment that is not empty, exactly
    one verification call, with the position of the segment as [id] and its
    text as [data]; for an empty segment it issues no call and publishes no
    result with that position, yet the segment keeps its position in the
    re-rendered content. *)
Theorem one_call_per_nonempty_segment (api : endpoint) (st : AppState)
  (i : nat) (t : string) :
  let texts := segments (strip_tags (innerHTML st)) in
  let run := handleSubmit api st in
  nth_error texts i = Some t ->
  List.length (filter is_fetch (trace run)) = List.length (nonempty texts) /\
  (t <> "" -> calls_for i (trace run) = [Fetch i t]) /\
  (t = "" ->
     calls_for i (trace run) = [] /\
     (forall inputTextResults, In (SetResults inputTextResults) (trace run) ->
        List.length inputTextResults = List.length (nonempty texts) /\
        forall r, In r inputTextResults -> id r <> toString i) /\
     nth_error (segments (innerHTML (final_state run))) i = Some "").
Proof.
  intros texts run Hi.
  pose proof (calls_for_trace api st i t Hi) as Hcalls. fold run in Hcalls.
  split; [|split].
  - destruct (trace_shape api st) as (tail & Htr & Htail). fold run in Htr.
    rewrite Htr. cbn [filter is_fetch]. rewrite filter_app. cbn [filter is_fetch].
    rewrite filter_fetch_requests, (filter_fetch_none tail Htail), app_nil_r.
    apply requests_length.
  - intros Hne. apply String.eqb_neq in Hne. now rewrite Hne in Hcalls.
  - intros ->. split; [exact Hcalls|]. split.
    + intros inputTextResults Hpub. split.
      * destruct (published_results_origin api st _ Hpub) as (rs & Haw & -> & _).
        apply awaited_inr in Haw. now apply (published_count api _ rs 0 0).
      * intros r Hr Hid.
        destruct (published_result_position api st _ r Hpub Hr)
          as (j & u & r0 & Hj & Hu & Hne & _).
        assert (j = i) by (apply toString_inj; congruence). subst j.
        fold texts in Hu. congruence.
    + destruct (rendered_segments api st) as (rs & Hseg & Hnone).
      fold run in Hseg. fold texts in Hseg, Hnone. rewrite Hseg.
      assert (Hlt : i < List.length texts) by (eapply nth_error_lt; eauto).
      rewrite <- (mark_all_length rs texts 0) in Hlt.
      rewrite (nth_error_nth' _ "" Hlt). f_equal.
      rewrite mark_all_length in Hlt.
      rewrite nth_mark_all by exact Hlt.
      rewrite (Hnone i "" Hi eq_refl).
      now apply nth_error_nth.
Qed.

Lemma one_call_per_nonempty_segment_witness :
  let api := constant_endpoint 0.75 0.25 ["flagged"] in
  let st := surface "<br>two" in
  nth_error (segments (strip_tags (innerHTML st))) 0 = Some "" /\
  calls_for 0 (trace (handleSubmit api st)) = [] /\
  calls_for 1 (trace (handleSubmit api st)) = [Fetch 1 "two"] /\
  nth_error (segments (innerHTML (final_state (handleSubmit api st)))) 0 = Some "".
Proof.
  intros api st.
  destruct (one_call_per_nonempty_segment api st 0 "" eq_refl)
    as (_ & _ & Hempty).
  destruct (Hempty eq_refl) as (Hcalls & _ & Hpos).
  destruct (one_call_per_nonempty_segment api st 1 "two" eq_refl)
    as (_ & Hcall & _).
  split; [reflexivity|]. split; [exact Hcalls|]. split; [|exact Hpos].
  apply Hcall. discriminate.
Defined.

(** ** The empty surface *)

(** C5: submitting an empty surface gives no segment, issues no call,
    publishes the empty collection and runs the aggregation to its end: the
    divisions by zero leave NaN in the rating, which is stored on the document
    before the loading flag is cleared. *)
Theorem empty_surface_submitted (api : endpoint) (st : AppState) :
  innerHTML st = "" ->
  let doc := {| content := ""; rating := undefined_rating; results := [] |} in
  segments (strip_tags (innerHTML st)) = [] /\
  handleSubmit api st
  = (tt,
     {| innerHTML := ""; isLoading := false; shared_results := [];
        userDocument := doc |},
     [SetInnerHTML ""; SetIsLoading true; SetInnerHTML ""; SetResults [];
      UpdateUserDocument doc; SetIsLoading false]) /\
  filter is_fetch (trace (handleSubmit api st)) = [] /\
  PrimFloat.is_nan (rating_gpt (rate [])) = true.
Proof.
  intros Hempty doc. destruct st as [html loading shared document].
  cbn [innerHTML] in Hempty. subst html.
  repeat split; reflexivity.
Qed.

Lemma empty_surface_submitted_witness :
  handleSubmit (constant_endpoint 0.75 0.25 ["flagged"]) (surface "")
  = (tt,
     {| innerHTML := ""; isLoading := false; shared_results := [];
        userDocument :=
          {| content := ""; rating := undefined_rating; results := [] |} |},
     [SetInnerHTML ""; SetIsLoading true; SetInnerHTML ""; SetResults [];
      UpdateUserDocument
        {| content := ""; rating := undefined_rating; results := [] |};
      SetIsLoading false]).
Proof.
  exact (proj1 (proj2 (empty_surface_submitted
                         (constant_endpoint 0.75 0.25 ["flagged"]) (surface "")
                         eq_refl))).
Defined.

(** ** The loading flag *)

(** The claim as the specification states it fails: the calls are issued
    while the array of promises is built, before the flag is raised. *)
Lemma loading_raised_after_dispatch :
  let run := handleSubmit (constant_endpoint 0.75 0.25 ["flagged"])
               (surface "Hello world") in
  firstn 3 (trace run)
  = [SetInnerHTML "Hello world"; Fetch 0 "Hello world"; SetIsLoading true] /\
  ~ precedes (is_loading true) is_fetch (trace run).
Proof.
  intros run. split; [reflexivity|].
  intros H.
  specialize (H [SetInnerHTML "Hello world"] (Fetch 0 "Hello world")
                (skipn 2 (trace run)) eq_refl eq_refl).
  discriminate H.
Qed.

(** C9, as amended: the loading flag is raised once, after all the
    verification calls of the submission have been issued and before any of
    their results is handled, and it is cleared only as the last effect, after
    the content, the rating and the filtered results have been stored on the
    document. *)
Theorem loading_flag_brackets_processing (api : endpoint) (st : AppState) :
  let input := strip_tags (innerHTML st) in
  let run := handleSubmit api st in
  exists rest,
    trace run
    = (SetInnerHTML input :: requests 0 (segments input)
       ++ SetIsLoading true :: rest)%list /\
    Forall (fun e => is_fetch e = false) rest /\
    forall before after, rest = (before ++ SetIsLoading false :: after)%list ->
      after = [] /\
      In (UpdateUserDocument (userDocument (final_state run))) before /\
      content (userDocument (final_state run)) = innerHTML (final_state run) /\
      results (userDocument (final_state run)) = shared_results (final_state run) /\
      rating (userDocument (final_state run))
      = rate (shared_results (final_state run)).
Proof.
  intros input run. pose proof (handleSubmit_unfold api st) as E. cbv zeta in E.
  fold input in E. fold run in E. rewrite E.
  destruct (awaited (responses api 0 (segments input))) as [e|rs];
    eexists; (split; [reflexivity|]); (split; [repeat constructor|]);
    intros before after H.
  - destruct before as [|x [|y before]]; discriminate H.
  - unfold final_state. cbn [fst snd].
    do 3 (destruct before as [|? before]; [discriminate H|]).
    destruct before as [|? before].
    + injection H as <- <- <- <-. repeat split; try reflexivity.
      simpl. tauto.
    + exfalso. simpl in H. injection H as _ _ _ _ H.
      destruct before; discriminate H.
Qed.

Lemma loading_flag_brackets_processing_witness :
  let run := handleSubmit (constant_endpoint 0.75 0.25 ["flagged"])
               (surface "Hello world") in
  exists before,
    trace run
    = ([SetInnerHTML "Hello world"; Fetch 0 "Hello world"; SetIsLoading true]
       ++ before ++ [SetIsLoading false])%list /\
    In (UpdateUserDocument (userDocument (final_state run))) before.
Proof.
  intros run.
  destruct (loading_flag_brackets_processing
              (constant_endpoint 0.75 0.25 ["flagged"]) (surface "Hello world"))
    as (rest & Htrace & _ & Hclear).
  fold run in Htrace, Hclear.
  exists (removelast rest).
  assert (Hrest : rest = (removelast rest ++ [SetIsLoading false])%list).
  { assert (H : skipn 3 (trace run) = rest) by (rewrite Htrace; reflexivity).
    rewrite <- H. reflexivity. }
  split.
  - rewrite Htrace. simpl. now rewrite <- Hrest.
  - exact (proj1 (proj2 (Hclear _ _ Hrest))).
Defined.

(** ** Failure of a call *)

Lemma awaited_failure (api : endpoint) (texts : list string) (i : nat)
  (t : string) (e : error) :
  nth_error texts i = Some t -> t <> "" ->
  api i t = Rejected e \/ api i t = Resolved (inl e) ->
  exists e', awaited (responses api 0 texts) = inl e'.
Proof.
  intros Hi Hne Hfail.
  destruct (awaited (responses api 0 texts)) as [e'|rs] eqn:Haw; [now exists e'|].
  exfalso. destruct (awaited_aligned api texts rs Haw) as [_ Hal].
  specialize (Hal i t Hi). apply String.eqb_neq in Hne. rewrite Hne in Hal.
  destruct Hal as (r0 & _ & Hapi). unfold resolved in Hapi.
  destruct Hfail as [H|H]; congruence.
Qed.

(** C10: when a verification call or the parsing of its response fails, the
    error is logged and nothing else follows: no results are published, the
    document is not updated, and the loading flag, raised before, is not
    cleared, so that the metrics panel stays on its loading placeholder. *)
Theorem failed_submission_only_logged (api : endpoint) (st : AppState)
  (i : nat) (t : string) (e : error) :
  let input := strip_tags (innerHTML st) in
  let run := handleSubmit api st in
  nth_error (segments input) i = Some t -> t <> "" ->
  api i t = Rejected e \/ api i t = Resolved (inl e) ->
  (exists e',
     trace run
     = (SetInnerHTML input :: requests 0 (segments input)
        ++ [SetIsLoading true; ConsoleLog e'])%list) /\
  (forall rs, ~ In (SetResults rs) (trace run)) /\
  (forall d, ~ In (UpdateUserDocument d) (trace run)) /\
  ~ In (SetIsLoading false) (trace run) /\
  shared_results (final_state run) = shared_results st /\
  userDocument (final_state run) = userDocument st /\
  isLoading (final_state run) = true /\
  TextMetrics (final_state run) = ResultMetricsLoader.
Proof.
  intros input run Hi Hne Hfail.
  destruct (awaited_failure api _ i t e Hi Hne Hfail) as [e' Haw].
  pose proof (handleSubmit_unfold api st) as E. cbv zeta in E.
  fold input in E. fold run in E. rewrite Haw in E. rewrite E.
  unfold trace, final_state. cbn [fst snd].
  assert (Hnot : forall ev, is_fetch ev = false -> ev <> SetIsLoading true ->
                   ev <> ConsoleLog e' -> ev <> SetInnerHTML input ->
                   ~ In ev (SetInnerHTML input :: requests 0 (segments input)
                            ++ [SetIsLoading true; ConsoleLog e'])%list).
  { intros ev Hev H1 H2 H3 [H|H]; [congruence|].
    apply in_app_iff in H. destruct H as [H|H].
    - apply in_requests in H. congruence.
    - simpl in H. destruct H as [H|[H|[]]]; congruence. }
  split; [now exists e'|].
  repeat split; try reflexivity.
  - intros rs. apply Hnot; [reflexivity | discriminate ..].
  - intros d. apply Hnot; [reflexivity | discriminate ..].
  - apply Hnot; [reflexivity | discriminate ..].
Qed.

Lemma failed_submission_only_logged_witness :
  let api := fun (i : nat) (_ : string) =>
    match i with
    | 1 => Rejected "Failed to fetch"
    | _ => resolved (sample_result 0.75 0.25 ["flagged"])
    end in
  let st := surface "one<br>two" in
  nth_error (segments (strip_tags (innerHTML st))) 1 = Some "two" /\
  api 1 "two" = Rejected "Failed to fetch" /\
  isLoading (final_state (handleSubmit api st)) = true /\
  TextMetrics (final_state (handleSubmit api st)) = ResultMetricsLoader.
Proof.
  intros api st.
  assert (Hne : "two" <> "") by discriminate.
  destruct (failed_submission_only_logged api st 1 "two" "Failed to fetch"
              eq_refl Hne (or_introl eq_refl))
    as (_ & _ & _ & _ & _ & _ & Hloading & Hpanel).
  repeat split; assumption.
Defined.

(** ** Paste *)

Lemma handlePaste_unfold (reparse : Browser) (clipboardData : ClipboardData)
  (st : AppState) :
  let assigned := innerHTML st ++ replace_newlines (text_plain clipboardData) in
  handlePaste reparse clipboardData st
  = (tt,
     {| innerHTML := reparse assigned; isLoading := isLoading st;
        shared_results := shared_results st;
        userDocument := with_content (userDocument st) (reparse assigned) |},
     [SetInnerHTML assigned;
      UpdateUserDocument (with_content (userDocument st) (reparse assigned))]).
Proof. reflexivity. Qed.


Lemma count_sub_br_skip (c : ascii) (s : string) :
  c <> "<"%char -> count_sub "<br>" (String c s) = count_sub "<br>" s.
Proof.
  intros Hc. cbn [count_sub strip_prefix].
  destruct (Ascii.eqb_spec "<" c) as [E|_]; [congruence | reflexivity].
Qed.

Lemma match_tag_skip (c : ascii) (s : string) :
  c <> "<"%char -> match_tag (String c s) = None.
Proof.
  intros Hc. cbn [match_tag].
  destruct (Ascii.eqb_spec c "<") as [E|_]; [congruence | reflexivity].
Qed.

Lemma has_tag_br (s : string) : has_tag ("<br>" ++ s) = has_tag s.
Proof. reflexivity. Qed.

Lemma count_sub_br (s : string) :
  count_sub "<br>" ("<br>" ++ s) = S (count_sub "<br>" s).
Proof. reflexivity. Qed.

Lemma count_lt_br (s : string) :
  count_char "<" ("<br>" ++ s) = S (count_char "<" s).
Proof. reflexivity. Qed.

(** Pasted text without any [<] comes out with one marker for each line break
    and nothing else that opens a tag. *)
Lemma replace_newlines_markers (text : string) :
  count_char "<" text = 0 ->
  count_sub "<br>" (replace_newlines text) = count_char newline text /\
  count_char "<" (replace_newlines text) = count_char newline text /\
  has_tag (replace_newlines text) = false.
Proof.
  induction text as [|c text IH]; intros Hlt; [repeat split; reflexivity|].
  cbn [count_char] in Hlt.
  destruct (Ascii.eqb_spec "<" c) as [E|Hc]; [discriminate Hlt|].
  destruct (IH Hlt) as (IH1 & IH2 & IH3).
  cbn [replace_newlines count_char].
  rewrite (Ascii.eqb_sym newline c).
  destruct (Ascii.eqb c newline).
  - rewrite count_sub_br, count_lt_br, has_tag_br, IH1, IH2, IH3.
    repeat split; reflexivity.
  - rewrite count_sub_br_skip by congruence.
    cbn [count_char has_tag].
    rewrite match_tag_skip by congruence.
    destruct (Ascii.eqb_spec "<" c) as [E|_]; [congruence|].
    rewrite IH1, IH2, IH3. repeat split; reflexivity.
Qed.




(** ** The scenario of the specification *)

(** [Hello world], answered with gpt [0.8] and human [0.2], is wrapped and
    rated 80 against 20. *)
Example hello_world :
  let answer := sample_result 0x1.999999999999ap-1 0x1.999999999999ap-3 ["x"] in
  let run := handleSubmit (fun _ _ => resolved answer) (surface "Hello world") in
  filter is_fetch (trace run) = [Fetch 0 "Hello world"] /\
  innerHTML (final_state run) = wrap 0 "Hello world" /\
  rating_gpt (rating (userDocument (final_state run))) = 80%float /\
  rating_human (rating (userDocument (final_state run))) = 20%float.
Proof. repeat split; reflexivity. Qed.

(** * Further properties of the components *)

(** ** What tag stripping keeps and what it drops *)

Lemma strip_tags_skip (c : ascii) (s : string) :
  match_tag (String c s) = None ->
  strip_tags (String c s) = String c (strip_tags s).
Proof.
  remember (String c s) as s0 eqn:E. revert c s E.
  funelim (strip_tags s0); intros c0 s0 E Hp.
  - discriminate.
  - congruence.
  - now injection E as -> ->.
Qed.

Lemma strip_tags_match (s rest : string) :
  match_tag s = Some rest -> strip_tags s = strip_tags rest.
Proof.
  funelim (strip_tags s); intros Hp.
  - discriminate.
  - congruence.
  - congruence.
Qed.

Lemma strip_tags_length (s : string) :
  String.length (strip_tags s) <= String.length s.
Proof.
  funelim (strip_tags s).
  - apply Nat.le_refl.
  - pose proof (match_tag_length _ _ e). lia.
  - simpl. lia.
Qed.

Lemma strip_tags_shortens (s : string) :
  has_tag s = true -> String.length (strip_tags s) < String.length s.
Proof.
  funelim (strip_tags s); intros Htag.
  - discriminate.
  - pose proof (strip_tags_length rest) as Hle.
    pose proof (match_tag_length _ _ e). lia.
  - assert (Hrest : has_tag s' = true).
    { cbn [has_tag] in Htag. now rewrite e in Htag. }
    specialize (H Hrest). simpl. lia.
Qed.

(** X1: the strings that tag stripping leaves as they are, are exactly
    the ones in which the pattern matches nowhere. *)
Theorem strip_tags_fixed_points (s : string) :
  strip_tags s = s <-> has_tag s = false.
Proof.
  split.
  - intros Hfix. destruct (has_tag s) eqn:Htag; [|reflexivity].
    apply strip_tags_shortens in Htag. rewrite Hfix in Htag. lia.
  - apply strip_tags_cleaned.
Qed.

Lemma no_lt_cleaned (s : string) : count_char "<" s = 0 -> has_tag s = false.
Proof.
  induction s as [|c s IH]; intros H; [reflexivity|].
  cbn [count_char] in H.
  destruct (Ascii.eqb_spec "<" c) as [E|Hc]; [discriminate H|].
  cbn [has_tag]. rewrite match_tag_skip by congruence. now apply IH.
Qed.

Lemma after_gt_none (s : string) : count_char ">" s = 0 -> after_gt s = None.
Proof.
  induction s as [|c s IH]; intros H; [reflexivity|].
  cbn [count_char] in H. cbn [after_gt]. rewrite (Ascii.eqb_sym c ">").
  destruct (Ascii.eqb ">" c); [discriminate H | now apply IH].
Qed.

Lemma match_tag_needs_gt (s : string) : count_char ">" s = 0 -> match_tag s = None.
Proof.
  intros H. destruct s as [|c [|d s]]; try reflexivity.
  - cbn [match_tag]. now destruct (Ascii.eqb c "<").
  - cbn [count_char] in H.
    destruct (Ascii.eqb ">" c) eqn:Ec; [discriminate H|].
    destruct (Ascii.eqb ">" d) eqn:Ed; [discriminate H|].
    cbn [match_tag]. destruct (Ascii.eqb c "<"); [|reflexivity].
    assert (Hs : after_gt s = None) by now apply after_gt_none.
    destruct (Ascii.eqb d "/").
    + destruct s as [|x s]; [reflexivity|]. cbn [tag_rest].
      destruct (is_letter x && negb (starts_br (String x s))); [|reflexivity].
      apply after_gt_none. cbn [count_char] in H.
      destruct (Ascii.eqb ">" x); [discriminate H | exact H].
    + cbn [tag_rest]. rewrite Hs.
      now destruct (is_letter d && negb (starts_br (String d s))).
Qed.

Lemma no_gt_cleaned (s : string) : count_char ">" s = 0 -> has_tag s = false.
Proof.
  induction s as [|c s IH]; intros H; [reflexivity|].
  cbn [has_tag]. rewrite (match_tag_needs_gt _ H).
  apply IH. cbn [count_char] in H.
  destruct (Ascii.eqb ">" c); [discriminate H | exact H].
Qed.

(** X2: a content without any [<], or without any [>], passes tag stripping
    unchanged: plain text is kept, and so is a tag that is never closed. *)
Theorem strip_tags_keeps_plain_text (s : string) :
  count_char "<" s = 0 \/ count_char ">" s = 0 -> strip_tags s = s.
Proof.
  intros [H|H]; apply strip_tags_cleaned; [now apply no_lt_cleaned | now apply no_gt_cleaned].
Qed.

Lemma strip_tags_keeps_plain_text_witness :
  strip_tags "2 > 1 and so on" = "2 > 1 and so on" /\
  strip_tags "a <span class=x" = "a <span class=x".
Proof.
  split.
  - apply strip_tags_keeps_plain_text. left. reflexivity.
  - apply strip_tags_keeps_plain_text. right. reflexivity.
Defined.

(** ** Submitting again *)

Lemma string_app_assoc (s1 s2 s3 : string) : (s1 ++ s2) ++ s3 = s1 ++ (s2 ++ s3).
Proof. induction s1 as [|c s1 IH]; simpl; [reflexivity | now rewrite IH]. Qed.

Lemma count_char_app (c : ascii) (x y : string) :
  count_char c (x ++ y) = count_char c x + count_char c y.
Proof. induction x as [|d x IH]; simpl; [reflexivity | rewrite IH; lia]. Qed.

Lemma string_of_uint_no_gt (d : Decimal.uint) :
  count_char ">" (NilEmpty.string_of_uint d) = 0.
Proof. induction d; simpl; assumption || reflexivity. Qed.

Lemma after_gt_app (x y : string) :
  count_char ">" x = 0 -> after_gt (x ++ String ">" y) = Some y.
Proof.
  induction x as [|c x IH]; intros H; [reflexivity|].
  cbn [count_char] in H. cbn [append after_gt]. rewrite (Ascii.eqb_sym c ">").
  destruct (Ascii.eqb ">" c); [discriminate H | now apply IH].
Qed.

Lemma strip_tags_no_lt_app (x y : string) :
  count_char "<" x = 0 -> strip_tags (x ++ y) = x ++ strip_tags y.
Proof.
  induction x as [|c x IH]; intros H; [reflexivity|].
  cbn [count_char] in H.
  destruct (Ascii.eqb_spec "<" c) as [E|Hc]; [discriminate H|].
  cbn [append]. rewrite strip_tags_skip by (apply match_tag_skip; congruence).
  now rewrite IH.
Qed.


(** The marker of [handleSubmit] is an opening tag, the text and a closing
    tag. *)
Lemma wrap_shape (i : nat) (t rest : string) :
  wrap i t ++ rest
  = String "<" (String "s"
      (("pan id=" ++ dquote ++ toString i ++ dquote ++ " class=" ++ dquote
        ++ "border-b-2 border-red-400" ++ dquote)
       ++ String ">" (t ++ "</span>" ++ rest))).
Proof.
  unfold wrap. rewrite !string_app_assoc. reflexivity.
Qed.

Lemma strip_tags_wrap_app (i : nat) (t rest : string) :
  count_char "<" t = 0 -> strip_tags (wrap i t ++ rest) = t ++ strip_tags rest.
Proof.
  intros Ht. rewrite wrap_shape.
  set (attrs := "pan id=" ++ _).
  rewrite (strip_tags_match _ (t ++ "</span>" ++ rest)).
  - rewrite strip_tags_no_lt_app by exact Ht.
    now rewrite (strip_tags_match ("</span>" ++ rest) rest) by reflexivity.
  - cbn [match_tag tag_rest]. rewrite Ascii.eqb_refl.
    change (Ascii.eqb "s" "/") with false.
    change (is_letter "s" && negb (starts_br (String "s" (attrs ++ String ">" (t ++ "</span>" ++ rest)))))
      with (negb (starts_br (String "s" (attrs ++ String ">" (t ++ "</span>" ++ rest))))).
    subst attrs. cbn [append starts_br].
    change (Ascii.eqb "s" "b" || Ascii.eqb "s" "B") with false. cbn [andb negb].
    apply (after_gt_app ("an id=" ++ dquote ++ toString i ++ dquote ++ " class=" ++ dquote
                         ++ "border-b-2 border-red-400" ++ dquote)).
    unfold dquote, toString.
    rewrite !count_char_app, string_of_uint_no_gt. reflexivity.
Qed.

(** X3: tag stripping takes the highlight marker off a segment again, when
    the text of the segment holds no [<]. *)
Theorem strip_tags_unwraps (i : nat) (t : string) :
  count_char "<" t = 0 -> strip_tags (wrap i t) = t.
Proof.
  intros Ht. rewrite <- (append_empty_r (wrap i t)).
  rewrite strip_tags_wrap_app by exact Ht.
  apply append_empty_r.
Qed.

Lemma strip_tags_unwraps_witness :
  count_char "<" "Hello world" = 0 /\ strip_tags (wrap 12 "Hello world") = "Hello world".
Proof.
  split; [reflexivity|]. apply strip_tags_unwraps. reflexivity.
Defined.

Lemma join_segments (input : string) : join "<br>" (segments input) = input.
Proof.
  unfold segments.
  destruct (String.eqb_spec input "") as [->|_]; [reflexivity|].
  apply join_split_on.
Qed.





(** ** Segments and line-break markers *)

Lemma cons_head_length (c : ascii) (l : list string) :
  l <> [] -> List.length (cons_head c l) = List.length l.
Proof. destruct l; [congruence | reflexivity]. Qed.

Lemma split_br_count (n : nat) :
  forall s, String.length s < n ->
  List.length (split "<br>" s) = S (count_sub "<br>" s).
Proof.
  unfold split. induction n as [|n IH]; intros s Hn; [lia|].
  destruct s as [|c s]; [reflexivity|].
  destruct (strip_prefix "<br>" (String c s)) as [rest|] eqn:Hp.
  - rewrite (split_on_match _ _ _ rest) by (discriminate || exact Hp).
    pose proof (strip_prefix_length _ _ _ Hp) as Hlen.
    apply strip_prefix_app in Hp. rewrite Hp, count_sub_br.
    cbn [List.length]. rewrite IH; [reflexivity|]. simpl in Hlen, Hn. lia.
  - rewrite split_on_skip by exact Hp.
    rewrite cons_head_length by apply split_on_not_nil.
    cbn [count_sub]. rewrite Hp. apply IH. simpl in Hn. lia.
Qed.

(** X5: a content is split into one segment more than it has line-break
    markers. *)
Theorem segments_one_more_than_markers (s : string) :
  List.length (split "<br>" s) = S (count_sub "<br>" s).
Proof. apply (split_br_count (S (String.length s))). lia. Qed.

(** X6: a buffer whose entries hold no line-break marker is read back from
    its join as the same segments, except for the buffer of one empty entry,
    whose join is the empty content and has no segment. *)
Theorem join_segments_roundtrip (l : list string) :
  Forall (fun x => occurs "<br>" x = false) l ->
  (segments (join "<br>" l) = l <-> l <> [""]).
Proof.
  intros Hall. split.
  - intros Hseg ->. discriminate Hseg.
  - now apply segments_join.
Qed.

Lemma join_segments_roundtrip_witness :
  segments (join "<br>" ["one"; ""; "<b>two</b>"]) = ["one"; ""; "<b>two</b>"] /\
  segments (join "<br>" [""]) = [].
Proof.
  split; [|reflexivity].
  apply join_segments_roundtrip; [repeat constructor | discriminate].
Defined.

(** ** Pasting *)

Lemma replace_newlines_lines (text : string) :
  count_char "<" text = 0 ->
  split "<br>" (replace_newlines text) = split (String newline "") text.
Proof.
  unfold split. induction text as [|c text IH]; intros Hlt; [reflexivity|].
  cbn [count_char] in Hlt.
  destruct (Ascii.eqb_spec "<" c) as [E|Hc]; [discriminate Hlt|].
  specialize (IH Hlt). cbn [replace_newlines].
  destruct (Ascii.eqb_spec c newline) as [->|Hnl].
  - rewrite (split_on_match "<" "br>" _ (replace_newlines text))
      by (discriminate || reflexivity).
    rewrite (split_on_match newline "" _ text);
      [now rewrite IH | discriminate |].
    cbn [strip_prefix]. now rewrite Ascii.eqb_refl.
  - rewrite split_on_skip.
    + rewrite split_on_skip; [now rewrite IH|].
      cbn [strip_prefix].
      destruct (Ascii.eqb_spec newline c) as [E|_]; [congruence | reflexivity].
    + cbn [strip_prefix].
      destruct (Ascii.eqb_spec "<" c) as [E|_]; [congruence | reflexivity].
Qed.

(** X7: for a pasted text without any [<], the segments of what is inserted
    are the lines of the text. *)
Theorem pasted_lines_are_segments (text : string) :
  count_char "<" text = 0 ->
  split "<br>" (replace_newlines text) = split (String newline "") text.
Proof. apply replace_newlines_lines. Qed.

Lemma pasted_lines_are_segments_witness :
  let text := String "a" (String newline (String newline "b")) in
  count_char "<" text = 0 /\
  split "<br>" (replace_newlines text) = ["a"; ""; "b"].
Proof.
  intros text. split; [reflexivity|].
  exact (pasted_lines_are_segments text eq_refl).
Defined.

(** X8: what is inserted holds no line break any more, and is longer than
    the pasted text by three code units for each line break. *)
Theorem replace_newlines_leaves_none (text : string) :
  count_char newline (replace_newlines text) = 0 /\
  String.length (replace_newlines text)
  = String.length text + 3 * count_char newline text.
Proof.
  induction text as [|c text [IH1 IH2]]; [split; reflexivity|].
  cbn [replace_newlines count_char String.length].
  rewrite (Ascii.eqb_sym newline c).
  destruct (Ascii.eqb c newline) eqn:Hc.
  - split; [exact IH1|]. cbn [append String.length]. rewrite IH2. lia.
  - cbn [count_char String.length]. rewrite (Ascii.eqb_sym newline c), Hc.
    split; [exact IH1|]. rewrite IH2. lia.
Qed.

(** X10: when a text without any [<] is pasted into an empty surface and the
    browser reads what is inserted back as it was assigned, a submission
    issues one call for each line of the text that is not empty, with the
    number of the line as [id] and the line as [data]. *)
Theorem paste_then_submit (reparse : Browser) (api : endpoint)
  (clipboardData : ClipboardData) (st : AppState) :
  let text := text_plain clipboardData in
  innerHTML st = "" ->
  count_char "<" text = 0 ->
  reparse (replace_newlines text) = replace_newlines text ->
  filter is_fetch
    (trace (handleSubmit api (final_state (handlePaste reparse clipboardData st))))
  = requests 0 (split (String newline "") text).
Proof.
  intros text Hempty Hplain Hread.
  destruct (trace_shape api (final_state (handlePaste reparse clipboardData st)))
    as (tail & -> & Htail).
  cbn [filter is_fetch]. rewrite filter_app. cbn [filter is_fetch].
  rewrite filter_fetch_requests, (filter_fetch_none tail Htail), app_nil_r.
  rewrite handlePaste_unfold. unfold final_state. cbn [fst snd innerHTML].
  rewrite Hempty. cbn [append]. fold text. rewrite Hread.
  destruct (replace_newlines_markers _ Hplain) as (_ & _ & Hclean).
  rewrite (strip_tags_cleaned _ Hclean).
  unfold segments.
  destruct (String.eqb_spec (replace_newlines text) "") as [E|_].
  - destruct text as [|c rest]; [reflexivity|].
    cbn [replace_newlines] in E. destruct (Ascii.eqb c newline); discriminate E.
  - now rewrite replace_newlines_lines.
Qed.

Lemma paste_then_submit_witness :
  let text := String "a" (String newline (String newline "b")) in
  let clipboardData := {| text_plain := text; text_html := "<p>a</p><p>b</p>" |} in
  filter is_fetch
    (trace (handleSubmit (constant_endpoint 0.75 0.25 ["flagged"])
              (final_state (handlePaste (fun html => html) clipboardData
                              (surface "")))))
  = [Fetch 0 "a"; Fetch 2 "b"].
Proof.
  intros text clipboardData.
  exact (paste_then_submit (fun html => html)
           (constant_endpoint 0.75 0.25 ["flagged"])
           clipboardData (surface "") eq_refl eq_refl eq_refl).
Defined.

(** ** More on submissions *)




Lemma no_details_no_contribution (rs : list InputTextResult) :
  Forall (fun r => details r = []) rs -> filter contributes rs = [].
Proof.
  induction 1 as [|r rs Hr _ IH]; [reflexivity|].
  cbn [filter]. unfold contributes at 1. now rewrite Hr.
Qed.

(** X12: when no result has details, the four sub-metrics of the rating are
    NaN and the overall percentages are those of a zero sum, whatever the
    scores of the results are: segments can be highlighted while the panel
    has no metrics to show. *)
Theorem metrics_undefined_without_details (rs : list InputTextResult) :
  Forall (fun r => details r = []) rs ->
  rating_metrics (rate rs) = rating_metrics undefined_rating /\
  rating_gpt (rate rs) = (0 / of_length (List.length rs) * 100)%float /\
  rating_human (rate rs) = (0 / of_length (List.length rs) * 100)%float.
Proof.
  intros H. unfold rate. rewrite fold_accumulate.
  rewrite (no_details_no_contribution rs H). repeat split; reflexivity.
Qed.

Lemma metrics_undefined_without_details_witness :
  let rs := [sample_result 0.75 0.25 []; sample_result 0.75 0.5 []] in
  Forall (fun r => flagged r = true) rs /\
  rating_metrics (rate rs) = rating_metrics undefined_rating /\
  rating_gpt (rate rs) = 0%float.
Proof.
  intros rs.
  assert (H : Forall (fun r => details r = []) rs) by (repeat constructor).
  destruct (metrics_undefined_without_details rs H) as (Hm & Hg & _).
  split; [repeat constructor|]. split; [exact Hm | exact Hg].
Defined.

Lemma nodup_stamped_ids (rs : list (option InputTextResult)) (idx : nat) :
  NoDup (map id (remove_empty (stamp_all idx rs))).
Proof.
  revert idx; induction rs as [|[x|] rs IH]; intros idx;
    cbn [stamp_all option_map remove_empty map]; [constructor | | apply IH].
  constructor; [|apply IH].
  intros Hin. apply in_map_iff in Hin. destruct Hin as (r & Hid & Hr).
  apply in_remove_empty_stamp_all in Hr. destruct Hr as (i & r0 & _ & ->).
  cbn [id set_id] in Hid. apply toString_inj in Hid. lia.
Qed.

(** X13: the results that a submission publishes carry pairwise different
    identifiers. *)
Theorem published_ids_distinct (api : endpoint) (st : AppState)
  (inputTextResults : list InputTextResult) :
  In (SetResults inputTextResults) (trace (handleSubmit api st)) ->
  NoDup (map id inputTextResults).
Proof.
  intros Hpub.
  destruct (published_results_origin api st _ Hpub) as (rs & _ & -> & _).
  apply nodup_stamped_ids.
Qed.

Lemma published_ids_distinct_witness :
  let run := handleSubmit (constant_endpoint 0.75 0.25 ["flagged"])
               (surface "one<br><br>three") in
  In (SetResults [set_id "0" (sample_result 0.75 0.25 ["flagged"]);
                  set_id "2" (sample_result 0.75 0.25 ["flagged"])]) (trace run) /\
  NoDup ["0"; "2"].
Proof.
  intros run.
  assert (Hpub : In (SetResults [set_id "0" (sample_result 0.75 0.25 ["flagged"]);
                                 set_id "2" (sample_result 0.75 0.25 ["flagged"])])
                   (trace run)).
  { vm_compute. do 5 right. left. reflexivity. }
  split; [exact Hpub|].
  exact (published_ids_distinct _ _ _ Hpub).
Defined.

Lemma nonempty_nil (texts : list string) :
  nonempty texts = [] -> texts = map (fun _ => "") texts.
Proof.
  induction texts as [|t texts IH]; [reflexivity|].
  cbn [nonempty filter map].
  destruct (String.eqb_spec t "") as [->|_]; cbn [negb]; [|discriminate].
  intros H. now rewrite <- IH.
Qed.

Lemma responses_of_empty (api : endpoint) (texts : list string) (idx : nat) :
  nonempty texts = [] ->
  responses api idx texts = map (option_map resolved) (map (fun _ => None) texts).
Proof.
  revert idx; induction texts as [|t texts IH]; intros idx; [reflexivity|].
  cbn [nonempty filter responses map].
  destruct (String.eqb t ""); cbn [negb]; [|discriminate].
  intros H. now rewrite IH.
Qed.

Lemma stamp_all_none {A} (l : list A) (idx : nat) :
  remove_empty (stamp_all idx (map (fun _ => None) l)) = [].
Proof. revert idx; induction l as [|x l IH]; intros idx; [reflexivity | apply IH]. Qed.

Lemma mark_all_none {A} (l : list A) (texts : list string) (idx : nat) :
  mark_all idx (map (fun _ => None) l) texts = texts.
Proof.
  revert texts idx; induction l as [|x l IH]; intros [|t texts] idx;
    try reflexivity.
  cbn [map mark_all]. now rewrite IH.
Qed.

(** X14: a content made of line-break markers only has nothing but empty
    segments: the submission issues no call, publishes no result, stores a
    rating of NaN and leaves the cleaned content on the surface. *)
Theorem only_empty_segments_submitted (api : endpoint) (st : AppState) :
  let input := strip_tags (innerHTML st) in
  let doc := {| content := input; rating := undefined_rating; results := [] |} in
  nonempty (segments input) = [] ->
  handleSubmit api st
  = (tt,
     {| innerHTML := input; isLoading := false; shared_results := [];
        userDocument := doc |},
     [SetInnerHTML input; SetIsLoading true; SetInnerHTML input; SetResults [];
      UpdateUserDocument doc; SetIsLoading false]).
Proof.
  intros input doc Hempty.
  pose proof (handleSubmit_unfold api st) as E. cbv zeta in E. fold input in E.
  rewrite E. rewrite (responses_of_empty api _ 0 Hempty), awaited_resolved.
  assert (Hreq : requests 0 (segments input) = []).
  { apply length_zero_iff_nil. now rewrite requests_length, Hempty. }
  unfold published. rewrite highlight_spec by (now rewrite length_map).
  cbn [fst snd]. rewrite stamp_all_none, mark_all_none, Hreq, join_segments.
  reflexivity.
Qed.

Lemma only_empty_segments_submitted_witness :
  final_state (handleSubmit (constant_endpoint 0.75 0.25 ["flagged"])
                 (surface "<p><br><br></p>"))
  = {| innerHTML := "<br><br>"; isLoading := false; shared_results := [];
       userDocument :=
         {| content := "<br><br>"; rating := undefined_rating; results := [] |} |}.
Proof.
  rewrite (only_empty_segments_submitted
             (constant_endpoint 0.75 0.25 ["flagged"]) (surface "<p><br><br></p>")
             eq_refl).
  reflexivity.
Defined.

(** X15: once a submission has published its results, the panel is out of
    the loading state and shows the overall gpt percentage of these results
    and their four sub-metrics, in the order coherence, repetition,
    personality, originality, and not the count of contributing results. *)
Theorem panel_after_submission (api : endpoint) (st : AppState)
  (inputTextResults : list InputTextResult) :
  let run := handleSubmit api st in
  let m := rating_metrics (rate inputTextResults) in
  In (SetResults inputTextResults) (trace run) ->
  TextMetrics (final_state run)
  = MetricsView (rating_gpt (rate inputTextResults))
      [("coherence", overall_coherence m); ("repetition", overall_repetition m);
       ("personality", overall_personality m);
       ("originality", overall_originality m)].
Proof.
  intros run m Hpub.
  destruct (published_results_origin api st _ Hpub) as (rs & Haw & Hrs & Hfinal).
  fold run in Hfinal. rewrite Hfinal.
  destruct (published_state api st rs Haw) as [_ Hshared].
  unfold TextMetrics, published in *. cbn [isLoading userDocument rating shared_results] in *.
  rewrite Hshared, <- Hrs. reflexivity.
Qed.

Lemma panel_after_submission_witness :
  let run := handleSubmit (constant_endpoint 0.75 0.25 ["flagged"])
               (surface "Hello world") in
  TextMetrics (final_state run)
  = MetricsView 75
      [("coherence", 5%float); ("repetition", 2.5%float);
       ("personality", 10%float); ("originality", 0%float)].
Proof.
  intros run.
  assert (Hpub : In (SetResults [set_id "0" (sample_result 0.75 0.25 ["flagged"])])
                   (trace run)).
  { vm_compute. do 4 right. left. reflexivity. }
  exact (panel_after_submission _ _ _ Hpub).
Defined.

Lemma in_requests_inv (texts : list string) (idx i : nat) (d : string) :
  In (Fetch i d) (requests idx texts) ->
  exists k, i = idx + k /\ nth_error texts k = Some d /\ d <> "".
Proof.
  revert idx; induction texts as [|t texts IH]; intros idx; cbn [requests];
    [intros []|].
  rewrite in_app_iff. intros [H|H].
  - destruct (String.eqb_spec t "") as [->|Hne]; [destruct H|].
    destruct H as [H|[]]. injection H as <- <-.
    exists 0. repeat split; [lia | exact Hne].
  - destruct (IH _ H) as (k & -> & Hk & Hne).
    exists (S k). repeat split; [lia | exact Hk | exact Hne].
Qed.

(** X16: every call that a submission issues carries the position of a
    segment as [id] and the text of that segment as [data]; the text is not
    empty and holds no line-break marker. *)
Theorem calls_are_segments (api : endpoint) (st : AppState) (i : nat) (d : string) :
  let texts := segments (strip_tags (innerHTML st)) in
  In (Fetch i d) (trace (handleSubmit api st)) ->
  nth_error texts i = Some d /\ d <> "" /\ occurs "<br>" d = false.
Proof.
  intros texts Hin.
  destruct (trace_shape api st) as (tail & Htr & Htail). rewrite Htr in Hin.
  destruct Hin as [Hin|Hin]; [discriminate Hin|].
  apply in_app_iff in Hin. destruct Hin as [Hin|[Hin|Hin]]; [|discriminate Hin|].
  - apply in_requests_inv in Hin. destruct Hin as (k & -> & Hk & Hne).
    fold texts in Hk. repeat split; [exact Hk | exact Hne|].
    pose proof (segments_no_br (strip_tags (innerHTML st))) as Hall.
    rewrite Forall_forall in Hall. apply Hall. eapply nth_error_In. exact Hk.
  - rewrite Forall_forall in Htail. specialize (Htail _ Hin). discriminate Htail.
Qed.

Lemma calls_are_segments_witness :
  let st := surface "one<br><br><b>three</b>" in
  nth_error (segments (strip_tags (innerHTML st))) 2 = Some "three" /\
  occurs "<br>" "three" = false.
Proof.
  intros st.
  assert (Hin : In (Fetch 2 "three")
                  (trace (handleSubmit (constant_endpoint 0.75 0.25 []) st))).
  { vm_compute. do 2 right. left. reflexivity. }
  destruct (calls_are_segments _ _ _ _ Hin) as (Hnth & _ & Hbr).
  split; [exact Hnth | exact Hbr].
Defined.

(** ** The comparison of the scores *)

Lemma SFcompare_refl (f : SpecFloat.spec_float) :
  SpecFloat.SFcompare f f = None \/ SpecFloat.SFcompare f f = Some Eq.
Proof.
  destruct f as [s|s| |s m e]; simpl; auto.
  - destruct s; auto.
  - right. destruct s; now rewrite Z.compare_refl, Pos.compare_cont_refl.
Qed.

Lemma ltb_irrefl (x : float) : PrimFloat.ltb x x = false.
Proof.
  rewrite FloatAxioms.ltb_spec. unfold SpecFloat.SFltb.
  now destruct (SFcompare_refl (FloatOps.Prim2SF x)) as [-> | ->].
Qed.

Lemma is_nan_spec (x : float) :
  PrimFloat.is_nan x = true -> FloatOps.Prim2SF x = SpecFloat.S754_nan.
Proof.
  unfold PrimFloat.is_nan. rewrite FloatAxioms.eqb_spec. unfold SpecFloat.SFeqb.
  destruct (SFcompare_refl (FloatOps.Prim2SF x)) as [H|H]; rewrite H;
    [|discriminate].
  intros _. destruct (FloatOps.Prim2SF x) as [s|s| |s m e];
    try reflexivity; simpl in H; try discriminate H; destruct s; discriminate H.
Qed.

Lemma ltb_nan (x y : float) :
  PrimFloat.is_nan x = true \/ PrimFloat.is_nan y = true -> PrimFloat.ltb x y = false.
Proof.
  rewrite FloatAxioms.ltb_spec. unfold SpecFloat.SFltb.
  intros [H|H]; rewrite (is_nan_spec _ H).
  - reflexivity.
  - now destruct (FloatOps.Prim2SF x).
Qed.

(** X17: a turn of the highlight loop leaves the buffer as it is when the
    two scores of the result are equal, or when one of them is NaN: only a gpt
    score that is strictly greater marks a segment. *)
Theorem ties_and_nan_not_highlighted
  (inputTextResults : list (option InputTextResult))
  (replaceMentTexts : list string) (i : nat) (r : InputTextResult) :
  nth i inputTextResults None = Some r ->
  gpt (score r) = human (score r) \/
  PrimFloat.is_nan (gpt (score r)) = true \/
  PrimFloat.is_nan (human (score r)) = true ->
  snd (highlight_step (inputTextResults, replaceMentTexts) i) = replaceMentTexts.
Proof.
  intros Hr Hscores. unfold highlight_step. rewrite Hr.
  assert (Hlt : PrimFloat.ltb (human (score r)) (gpt (score r)) = false).
  { destruct Hscores as [-> | [H|H]]; [apply ltb_irrefl | |]; apply ltb_nan; auto. }
  now rewrite Hlt.
Qed.

Lemma ties_and_nan_not_highlighted_witness :
  snd (highlight_step ([Some (sample_result 0.5 0.5 ["flagged"])], ["tie"]) 0) = ["tie"] /\
  snd (highlight_step ([Some (sample_result nan 0.5 ["flagged"])], ["nan"]) 0) = ["nan"].
Proof.
  split.
  - apply (ties_and_nan_not_highlighted
             [Some (sample_result 0.5 0.5 ["flagged"])] ["tie"] 0
             (sample_result 0.5 0.5 ["flagged"]) eq_refl).
    left. reflexivity.
  - apply (ties_and_nan_not_highlighted
             [Some (sample_result nan 0.5 ["flagged"])] ["nan"] 0
             (sample_result nan 0.5 ["flagged"]) eq_refl).
    right. left. reflexivity.
Defined.

(** ** Input after a submission *)

Lemma match_span_skip (c : ascii) (s : string) :
  c <> "<"%char -> match_span (String c s) = None.
Proof.
  intros Hc. cbn [match_span].
  destruct (Ascii.eqb_spec c "<") as [E|_]; [congruence | reflexivity].
Qed.

Lemma no_lt_no_span (s : string) : count_char "<" s = 0 -> has_span s = false.
Proof.
  induction s as [|c s IH]; intros H; [reflexivity|].
  cbn [count_char] in H.
  destruct (Ascii.eqb_spec "<" c) as [E|Hc]; [discriminate H|].
  cbn [has_span]. rewrite match_span_skip by congruence. now apply IH.
Qed.

(** X18: an input event in a content without any [<], or with a selection
    that has no parent element, leaves the surface as it is and stores its
    markup as the content of the document, rating and results being kept. *)
Theorem input_in_plain_content (selection : Selection) (st : AppState) :
  count_char "<" (innerHTML st) = 0 \/ anchorParent selection = None ->
  handleInput (Some selection) st
  = (tt,
     {| innerHTML := innerHTML st; isLoading := isLoading st;
        shared_results := shared_results st;
        userDocument := with_content (userDocument st) (innerHTML st) |},
     [UpdateUserDocument (with_content (userDocument st) (innerHTML st))]).
Proof.
  intros H. unfold handleInput, bind, getInnerHTML. cbv beta iota.
  destruct H as [H|H].
  - rewrite (no_lt_no_span _ H). reflexivity.
  - rewrite H. destruct (has_span (innerHTML st)); reflexivity.
Qed.

Lemma input_in_plain_content_witness :
  final_state
    (handleInput (Some {| anchorParent := Some (fun _ _ => "") |})
       (surface "typed text"))
  = {| innerHTML := "typed text"; isLoading := false; shared_results := [];
       userDocument := userDocument (surface "typed text") |}.
Proof.
  rewrite (input_in_plain_content {| anchorParent := Some (fun _ _ => "") |}
             (surface "typed text") (or_introl eq_refl)).
  reflexivity.
Defined.










(** ** Highlight markers in the content *)

Lemma strip_prefix_app_some (p x y r : string) :
  strip_prefix p x = Some r -> strip_prefix p (x ++ y) = Some (r ++ y).
Proof.
  revert x; induction p as [|a p IH]; intros [|b x]; simpl; try discriminate.
  - intros [= <-]. now destruct y.
  - intros [= <-]. reflexivity.
  - destruct (Ascii.eqb a b); [apply IH | discriminate].
Qed.

(** A pattern without [<] does not end inside what starts with a [<]. *)
Lemma plain_pattern_no_straddle (q : string) :
  count_char "<" q = 0 ->
  forall x y, y = "" \/ (exists y', y = String "<" y') ->
  strip_prefix q x = None -> strip_prefix q (x ++ y) = None.
Proof.
  induction q as [|a q IH]; intros Hq x y Hy Hx.
  - destruct x; discriminate Hx.
  - cbn [count_char] in Hq.
    destruct (Ascii.eqb "<" a) eqn:Ha; [discriminate Hq|].
    destruct x as [|b x].
    + destruct Hy as [->|[y' ->]]; [reflexivity|].
      cbn [append strip_prefix]. rewrite (Ascii.eqb_sym a "<"), Ha. reflexivity.
    + cbn [append strip_prefix] in *.
      destruct (Ascii.eqb a b); [|reflexivity].
      now apply IH.
Qed.

(** Occurrences of a pattern that starts with its only [<] are counted piece
    by piece, when the second piece is empty or starts with a [<]. *)
Lemma count_sub_app (q x y : string) :
  count_char "<" q = 0 ->
  y = "" \/ (exists y', y = String "<" y') ->
  count_sub (String "<" q) (x ++ y)
  = count_sub (String "<" q) x + count_sub (String "<" q) y.
Proof.
  intros Hq Hy. induction x as [|c x IH]; [reflexivity|].
  change (String c x ++ y) with (String c (x ++ y)).
  cbn [count_sub]. rewrite IH.
  change (String c (x ++ y)) with (String c x ++ y).
  destruct (strip_prefix (String "<" q) (String c x)) as [r|] eqn:Hp.
  - now rewrite (strip_prefix_app_some _ _ y _ Hp).
  - assert (Hnone : strip_prefix (String "<" q) (String c x ++ y) = None).
    { cbn [append strip_prefix] in *.
      destruct (Ascii.eqb "<" c); [|reflexivity].
      now apply plain_pattern_no_straddle. }
    now rewrite Hnone.
Qed.

Lemma count_sub_plain_prefix (q x y : string) :
  count_char "<" x = 0 ->
  count_sub (String "<" q) (x ++ y) = count_sub (String "<" q) y.
Proof.
  induction x as [|c x IH]; intros Hx; [reflexivity|].
  cbn [count_char] in Hx.
  destruct (Ascii.eqb "<" c) eqn:Hc; [discriminate Hx|].
  cbn [append count_sub strip_prefix]. rewrite Hc. now apply IH.
Qed.

Lemma strip_prefix_self (p r : string) : strip_prefix p (p ++ r) = Some r.
Proof.
  induction p as [|a p IH]; simpl; [now destruct r|].
  now rewrite Ascii.eqb_refl.
Qed.

Lemma count_sub_self (q r : string) :
  count_char "<" q = 0 ->
  count_sub (String "<" q) (String "<" q ++ r) = S (count_sub (String "<" q) r).
Proof.
  intros Hq. change (String "<" q ++ r) with (String "<" (q ++ r)).
  cbn [count_sub]. change (String "<" (q ++ r)) with (String "<" q ++ r).
  rewrite strip_prefix_self. now rewrite count_sub_plain_prefix.
Qed.

(** The marker, cut where its opening ends and where the text begins. *)
Lemma wrap_pieces (i : nat) (t : string) :
  wrap i t
  = ("<span id=" ++ dquote)
    ++ toString i
    ++ (dquote ++ " class=" ++ dquote ++ "border-b-2 border-red-400" ++ dquote ++ ">")
    ++ t ++ "</span>".
Proof. unfold wrap. now rewrite !string_app_assoc. Qed.

(** The marker holds its opening once more than the text it is put around. *)
Lemma count_opening_wrap (i : nat) (t : string) :
  count_sub ("<span id=" ++ dquote) (wrap i t)
  = S (count_sub ("<span id=" ++ dquote) t).
Proof.
  rewrite wrap_pieces.
  change ("<span id=" ++ dquote) with (String "<" ("span id=" ++ dquote)).
  rewrite count_sub_self by reflexivity.
  rewrite count_sub_plain_prefix by apply toString_no_lt.
  rewrite count_sub_plain_prefix by reflexivity.
  rewrite count_sub_app by (reflexivity || (right; eexists; reflexivity)).
  change (count_sub (String "<" ("span id=" ++ dquote)) "</span>") with 0.
  now rewrite Nat.add_0_r.
Qed.

Lemma count_opening_br (s : string) :
  count_sub ("<span id=" ++ dquote) ("<br>" ++ s)
  = count_sub ("<span id=" ++ dquote) s.
Proof. reflexivity. Qed.

(** The openings in the join of a rendered buffer: one for each flagged
    position, and the ones the segments hold themselves. *)
Lemma count_opening_rendered (rs : list (option InputTextResult)) :
  forall (texts : list string) (idx : nat),
  List.length texts = List.length rs ->
  Forall (fun t => count_sub ("<span id=" ++ dquote) t = 0) texts ->
  count_sub ("<span id=" ++ dquote) (join "<br>" (mark_all idx rs texts))
  = List.length
      (filter (fun r => PrimFloat.ltb (human (score r)) (gpt (score r)))
         (remove_empty rs)).
Proof.
  induction rs as [|r rs IH]; intros [|t texts] idx Hlen Hall;
    try discriminate Hlen; [reflexivity|].
  inversion Hall as [|? ? Ht Htexts]; subst.
  injection Hlen as Hlen. specialize (IH texts (S idx) Hlen Htexts).
  cbn [mark_all].
  set (e := match r with Some x => if flagged x then wrap idx t else t | None => t end).
  assert (He : count_sub ("<span id=" ++ dquote) e
               = List.length
                   (filter (fun r => PrimFloat.ltb (human (score r)) (gpt (score r)))
                      (remove_empty [r]))).
  { subst e. destruct r as [x|]; cbn [remove_empty filter]; [|exact Ht].
    fold (flagged x). destruct (flagged x); [|exact Ht].
    now rewrite count_opening_wrap, Ht. }
  assert (Hsplit : remove_empty (r :: rs) = (remove_empty [r] ++ remove_empty rs)%list)
    by now destruct r.
  rewrite Hsplit, filter_app, length_app, <- He, <- IH.
  destruct texts as [|u texts].
  - destruct rs; [|discriminate Hlen]. cbn [mark_all join String.concat].
    now rewrite Nat.add_0_r.
  - destruct rs as [|r' rs]; [discriminate Hlen|].
    cbn [mark_all]. rewrite join_cons by discriminate.
    change ("<span id=" ++ dquote) with (String "<" ("span id=" ++ dquote)).
    rewrite count_sub_app by (reflexivity || (right; eexists; reflexivity)).
    now rewrite count_opening_br.
Qed.

Lemma remove_empty_map_some (results : list InputTextResult) :
  remove_empty (map Some results) = results.
Proof. induction results as [|r results IH]; simpl; [reflexivity | now rewrite IH]. Qed.

(** The claim as the specification states it fails for the content as a
    string: a segment can spell out a marker of its own, here inside a
    comment, pieced together by the tag stripping; its result is not flagged,
    and the content holds one opening of a marker all the same. *)
Lemma marker_spelled_out_in_a_segment :
  let opener := "<span id=" ++ String "034"%char "" in
  let spelled :=
    "<!--" ++ opener ++ "0" ++ String "034"%char "" ++ " class=" ++ String "034"%char ""
    ++ "border-b-2 border-red-400" ++ String "034"%char "" ++ ">x</span>-->" in
  let html :=
    "<!--<<i>span id=" ++ String "034"%char "" ++ "0" ++ String "034"%char ""
    ++ " class=" ++ String "034"%char "" ++ "border-b-2 border-red-400"
    ++ String "034"%char "" ++ ">x<<i>/span>-->" in
  let results := [sample_result 0.25 0.75 []] in
  let api := constant_endpoint 0.25 0.75 [] in
  let st' := final_state (handleSubmit api (surface html)) in
  segments (strip_tags html) = [spelled] /\
  responses api 0 (segments (strip_tags html))
  = map (fun r => Some (resolved r)) results /\
  filter (fun r => PrimFloat.ltb (human (score r)) (gpt (score r))) results = [] /\
  innerHTML st' = spelled /\
  ~ (count_sub opener (innerHTML st')
     = List.length
         (filter (fun r => PrimFloat.ltb (human (score r)) (gpt (score r))) results)).
Proof.
  intros opener spelled html results api st'.
  repeat split; try reflexivity.
  intros H. vm_compute in H. discriminate H.
Qed.

(** C2, as amended: with [N] segments and [N] successful results, the
    re-rendered content is the join of a buffer in which exactly the
    positions whose result has [gpt > human] hold the highlight marker of
    their segment, the marker carrying the position as [id]; when no segment
    spells out the opening of a marker itself, the content holds exactly as
    many markers as there are results with [gpt > human]; and every result is
    published with its position, as a string, in its [id], and is otherwise
    as the endpoint returned it. *)
Theorem flagged_segments_highlighted (api : endpoint) (st : AppState)
  (results : list InputTextResult) :
  let texts := segments (strip_tags (innerHTML st)) in
  let opener := "<span id=" ++ String "034"%char "" in
  let marker := fun (i : nat) (t : string) =>
    opener ++ toString i ++ String "034"%char "" ++ " class=" ++ String "034"%char ""
    ++ "border-b-2 border-red-400" ++ String "034"%char "" ++ ">" ++ t ++ "</span>" in
  let greater := fun r => PrimFloat.ltb (human (score r)) (gpt (score r)) in
  responses api 0 texts = map (fun r => Some (resolved r)) results ->
  let st' := final_state (handleSubmit api st) in
  exists rendered : list string,
    innerHTML st' = join "<br>" rendered /\
    List.length rendered = List.length texts /\
    (forall i r, nth_error results i = Some r ->
       nth i rendered ""
       = if greater r then marker i (nth i texts "") else nth i texts "") /\
    highlighted texts rendered = flagged_positions (map Some results) /\
    List.length (highlighted texts rendered) = List.length (filter greater results) /\
    (Forall (fun t => count_sub opener t = 0) texts ->
     count_sub opener (innerHTML st') = List.length (filter greater results)) /\
    List.length (shared_results st') = List.length results /\
    (forall i r, nth_error results i = Some r ->
       exists r',
         nth_error (shared_results st') i = Some r' /\
         id r' = toString i /\ score r' = score r /\
         metrics r' = metrics r /\ details r' = details r).
Proof.
  intros texts opener marker greater Hresp st'.
  assert (Hlen : List.length texts = List.length results).
  { rewrite <- (responses_length api texts 0), Hresp. apply length_map. }
  assert (Haw : awaited (responses api 0 texts) = inr (map Some results)).
  { rewrite Hresp, <- (map_map Some (option_map resolved)). apply awaited_resolved. }
  assert (E : st' = published (map Some results) texts).
  { subst st'. pose proof (handleSubmit_unfold api st) as E. cbv zeta in E.
    fold texts in E. rewrite Haw in E. now rewrite E. }
  rewrite E. unfold published.
  rewrite highlight_spec by (now rewrite length_map).
  cbn [fst snd innerHTML shared_results].
  pose proof (remove_empty_stamp_all_some results 0) as Hall.
  assert (Hhl : highlighted texts (mark_all 0 (map Some results) texts)
                = flagged_positions (map Some results)).
  { unfold highlighted, flagged_positions.
    rewrite mark_all_length, length_map, Hlen.
    apply filter_ext_in. intros i Hi. apply in_seq in Hi.
    rewrite nth_mark_all by lia. simpl Nat.add.
    destruct (nth i (map Some results) None) as [x|].
    - destruct (flagged x); [apply String.eqb_refl|].
      apply String.eqb_neq. intros H. symmetry in H. now apply wrap_neq in H.
    - apply String.eqb_neq. intros H. symmetry in H. now apply wrap_neq in H. }
  exists (mark_all 0 (map Some results) texts).
  split; [reflexivity|].
  split; [apply mark_all_length|].
  split.
  { intros i r Hi. rewrite nth_mark_all by (rewrite Hlen; eapply nth_error_lt; eauto).
    rewrite (nth_map_some _ _ _ Hi). reflexivity. }
  split; [exact Hhl|].
  split; [rewrite Hhl; apply count_flagged_positions|].
  split.
  { intros Hplain.
    assert (Hl : List.length texts = List.length (map Some results))
      by now rewrite length_map.
    pose proof (count_opening_rendered (map Some results) texts 0 Hl Hplain) as Hc.
    rewrite remove_empty_map_some in Hc. exact Hc. }
  split.
  { apply (f_equal (@List.length _)) in Hall.
    rewrite stamp_all_length, !length_map in Hall. now symmetry. }
  intros i r Hi.
  apply (f_equal (fun l => nth_error l i)) in Hall.
  rewrite nth_error_stamp_all, !nth_error_map, Hi in Hall. simpl in Hall.
  destruct (nth_error _ i) as [r'|]; [|discriminate Hall].
  exists r'. injection Hall as <-. repeat split; reflexivity.
Qed.

Lemma flagged_segments_highlighted_witness :
  let api := fun (i : nat) (_ : string) =>
    match i with
    | 1 => resolved (sample_result 0.75 0.25 ["flagged"])
    | _ => resolved (sample_result 0.25 0.75 [])
    end in
  let st := surface "one<br>two<br>three" in
  let results := [sample_result 0.25 0.75 []; sample_result 0.75 0.25 ["flagged"];
                  sample_result 0.25 0.75 []] in
  let st' := final_state (handleSubmit api st) in
  responses api 0 (segments (strip_tags (innerHTML st)))
  = map (fun r => Some (resolved r)) results /\
  count_sub ("<span id=" ++ String "034"%char "") (innerHTML st') = 1 /\
  (exists r', nth_error (shared_results st') 1 = Some r' /\ id r' = "1") /\
  exists rendered : list string,
    innerHTML st' = join "<br>" rendered /\
    highlighted (segments (strip_tags (innerHTML st))) rendered = [1].
Proof.
  intros api st results st'. split; [reflexivity|].
  destruct (flagged_segments_highlighted api st results eq_refl)
    as (rendered & Hhtml & _ & _ & Hhl & _ & Hcount & _ & Hids).
  split; [apply Hcount; vm_compute; repeat constructor|].
  split.
  - destruct (Hids 1 (sample_result 0.75 0.25 ["flagged"]) eq_refl)
      as (r' & Hr' & Hid & _).
    exists r'. split; [exact Hr' | exact Hid].
  - exists rendered. split; [exact Hhtml | exact Hhl].
Defined.
